(** * EcoScholar qualification pipeline: a shallow embedding of the later
    revision of [processPaperBatch] / [handleRunCycle] in src/App.tsx
    (the second [App] component of the file, the one with fail-fast), and of
    [analyzePaper] in src/services/ollamaService.ts and
    src/services/geminiService.ts, the two services App.tsx imports.

    Numbers (JS doubles) are modelled as rationals [Q]; comparisons and
    arithmetic on them are the exact ones.  Cancellation ([signal.aborted])
    is not modelled except where the judgment loop is left without a result. *)

From Stdlib Require Import List Bool Arith Lia ZArith QArith Qround Qminmax String.
From Stdlib Require Import Sorting.Permutation Sorting.Sorted.
Import ListNotations.

Open Scope Q_scope.

(* ------------------------------------------------------------------ *)
(** ** Data model (src/unnamed/part_000, the project's types.ts) *)

Definition Embedding := list Q.

(** [ProcessingResult['status']] *)
Inductive Status :=
| FILTERED_OUT
| PENDING_AI
| AI_REJECTED
| QUALIFIED
| QUALIFIED_SPEEDUP
| SKIPPED_FAIL_FAST.

Definition Status_eqb (a b : Status) : bool :=
  match a, b with
  | FILTERED_OUT, FILTERED_OUT | PENDING_AI, PENDING_AI
  | AI_REJECTED, AI_REJECTED | QUALIFIED, QUALIFIED
  | QUALIFIED_SPEEDUP, QUALIFIED_SPEEDUP
  | SKIPPED_FAIL_FAST, SKIPPED_FAIL_FAST => true
  | _, _ => false
  end.

(** A semantic sentence with its precomputed vector (an element of
    [activeSentenceVectors]). *)
Record SentenceVector := {
  sv_id : nat;
  sv_text : string;
  sv_customTag : string;
  sv_positive : bool;
  sv_vector : Embedding
}.

(** An entry of [matches]. *)
Record Match := {
  m_sentenceId : nat;
  m_tag : string;
  m_netScore : Q;
  m_rawScore : Q
}.

(** The object returned by [analyzePaper] (the fields the pipeline reads). *)
Record Analysis := {
  a_qualified : bool;
  a_score : Q;
  a_summary : string;
  a_probability : Q
}.

(** [cycleRef.current] *)
Record CycleRef := {
  processedCount : nat;
  qualifiedCount : nat;
  failFastTriggered : bool
}.

Definition cycle_reset : CycleRef :=
  {| processedCount := 0; qualifiedCount := 0; failFastTriggered := false |}.

(** The parts of [AppConfig] read by the pipeline. *)
Record AppConfig := {
  failFast : bool;
  speedupSampleCount : nat;
  speedupQualifyRate : Q;
  minVectorScore : Q;
  minCompositeScore : Q
}.

(** The parts of [QueueItem] read by the pipeline. *)
Record QueueItem := {
  vecMin : option Q;
  compMin : option Q;
  startRec : nat;
  stopRec : nat
}.

(** [currentItem.vecMin ?? config.minVectorScore] *)
Definition item_vecMin (cfg : AppConfig) (it : QueueItem) : Q :=
  match vecMin it with Some v => v | None => minVectorScore cfg end.

Definition item_compMin (cfg : AppConfig) (it : QueueItem) : Q :=
  match compMin it with Some v => v | None => minCompositeScore cfg end.

(** One resolution of the [Promise.race] between the AI call, the 70 s
    timeout and the operator's RETRY / SKIP buttons. *)
Inductive RaceResult :=
| RSuccess (a : Analysis)
| RError
| RTimeout
| RSkip
| RRetry.

(** A candidate paper as handed to [processPaperBatch]: its id, its
    embedding ([paperEmbeddings[pIdx]], [None] when absent) and the
    successive race resolutions of its judgment loop. *)
Record DocInput := {
  d_id : nat;
  d_vector : option Embedding;
  d_race : list RaceResult
}.

(** [ScoreResult] of the spec: the per-document scores. *)
Record ScoreResult := {
  vectorScore : Q;
  compositeScore : Q;
  matches : list Match;
  passedVectorFilter : bool;
  passedCompositeFilter : bool
}.

Record ProcessingResult := {
  paperId : nat;
  r_vectorScore : Q;
  r_compositeScore : Q;
  r_matches : list Match;
  r_passedVectorFilter : bool;
  r_passedCompositeFilter : bool;
  aiAnalysis : option Analysis;
  skippedAi : bool;
  status : Status;
  stat_processed : nat;
  stat_qualified : nat;
  stat_active : bool
}.

(** The observable effects of a query run, in order: candidate-page fetches,
    calls of [aiService.analyzePaper], the harvest header, and the entries
    appended to the result feed. *)
Inductive Event :=
| EvFetch (offset size : nat)
| EvAnalyze (pid : nat)
| EvHarvestHeader (startRec : nat)
| EvPaper (r : ProcessingResult)
| EvFetchFailed (offset : nat)
| EvExhausted (offset : nat)
| EvComplete (failFastStop : bool).

(* ------------------------------------------------------------------ *)
(** ** Sorting: [ruleScores.sort((a, b) => b - a)] *)

Fixpoint insert_desc (x : Q) (l : list Q) : list Q :=
  match l with
  | [] => [x]
  | y :: l' => if Qle_bool y x then x :: y :: l' else y :: insert_desc x l'
  end.

Fixpoint sort_desc (l : list Q) : list Q :=
  match l with
  | [] => []
  | x :: l' => insert_desc x (sort_desc l')
  end.

Definition Qsum (l : list Q) : Q := fold_left Qplus l 0.

(* ------------------------------------------------------------------ *)
(** ** Scoring (loop body of [processPaperBatch], before the rules engine).
    [cosineSimilarity] lives in services/vectorService.ts, which is not part
    of the sources: it is a parameter of the scorer. *)

Section Scoring.

Variable cosineSimilarity : Embedding -> Embedding -> Q.

(** [const weightedScore = sv.positive ? similarity : -similarity] *)
Definition weighted (sv : SentenceVector) (similarity : Q) : Q :=
  if sv_positive sv then similarity else - similarity.

(** The [validSentenceVectors.map(...)] callback: the weighted score and the
    match pushed when [similarity > 0.35]. *)
Definition rule_entry (pv : Embedding) (sv : SentenceVector) : Q * option Match :=
  let similarity := cosineSimilarity (sv_vector sv) pv in
  let weightedScore := weighted sv similarity in
  (weightedScore,
   if Qlt_le_dec (35 # 100) similarity then
     Some {| m_sentenceId := sv_id sv; m_tag := sv_customTag sv;
             m_netScore := weightedScore; m_rawScore := similarity |}
   else None).

Fixpoint collect_matches (es : list (Q * option Match)) : list Match :=
  match es with
  | [] => []
  | (_, Some m) :: es' => m :: collect_matches es'
  | (_, None) :: es' => collect_matches es'
  end.

(** [compositeScore] and [matches]. *)
Definition composite (paperVector : option Embedding) (svs : list SentenceVector)
  : Q * list Match :=
  match paperVector, svs with
  | Some pv, _ :: _ =>
      let es := map (rule_entry pv) svs in
      let ruleScores := sort_desc (map fst es) in
      (Qsum (firstn 6 ruleScores) / 6, collect_matches es)
  | _, _ => (0, [])
  end.

Definition score_paper (cfg : AppConfig) (it : QueueItem)
  (queryVector : option Embedding) (svs : list SentenceVector) (d : DocInput)
  : ScoreResult :=
  let vs := match d_vector d, queryVector with
            | Some pv, Some qv => cosineSimilarity qv pv
            | _, _ => 0
            end in
  let '(cs, ms) := composite (d_vector d) svs in
  {| vectorScore := vs; compositeScore := cs; matches := ms;
     passedVectorFilter := Qle_bool (item_vecMin cfg it) vs;
     passedCompositeFilter := Qle_bool (item_compMin cfg it) cs |}.

Definition passes_prefilter (sc : ScoreResult) : bool :=
  passedVectorFilter sc || passedCompositeFilter sc.

End Scoring.

(* ------------------------------------------------------------------ *)
(** ** The judgment loop: [while (!analysisDone && !signal.aborted)].
    Every turn calls [aiService.analyzePaper]; RETRY starts a new turn.
    When the race resolutions run out the loop was left through
    [signal.aborted] and [aiAnalysis] stays [undefined]. *)

Definition error_analysis : Analysis :=
  {| a_qualified := false; a_score := 0;
     a_summary := "Analysis Failed (Error)"; a_probability := 0 |}.

Definition timeout_analysis : Analysis :=
  {| a_qualified := false; a_score := 0;
     a_summary := "Analysis Timed Out (Auto-skipped)"; a_probability := 0 |}.

Definition skipped_analysis : Analysis :=
  {| a_qualified := false; a_score := 0;
     a_summary := "Skipped by User"; a_probability := 0 |}.

Fixpoint ai_loop (pid : nat) (rs : list RaceResult) : option Analysis * list Event :=
  match rs with
  | [] => (None, [])
  | r :: rs' =>
      match r with
      | RSuccess a => (Some a, [EvAnalyze pid])
      | RError => (Some error_analysis, [EvAnalyze pid])
      | RTimeout => (Some timeout_analysis, [EvAnalyze pid])
      | RSkip => (Some skipped_analysis, [EvAnalyze pid])
      | RRetry => let '(a, evs) := ai_loop pid rs' in (a, EvAnalyze pid :: evs)
      end
  end.

(* ------------------------------------------------------------------ *)
(** ** The rules engine (one iteration of the [for] loop of
    [processPaperBatch], App.tsx lines 883-1064) *)

Section Engine.

Variable cosineSimilarity : Embedding -> Embedding -> Q.
Variable cfg : AppConfig.
Variable item : QueueItem.
Variable queryVector : option Embedding.
Variable svs : list SentenceVector.

(** [Math.max(1, Math.ceil(config.speedupSampleCount * config.speedupQualifyRate))] *)
Definition targetQualifiedCount : nat :=
  Z.to_nat (Z.max 1 (Qceiling (inject_Z (Z.of_nat (speedupSampleCount cfg))
                               * speedupQualifyRate cfg))).

Definition mk_result (d : DocInput) (sc : ScoreResult) (st : CycleRef) (smart : bool)
  (ai : option Analysis) (skipped : bool) (s : Status) : ProcessingResult :=
  {| paperId := d_id d;
     r_vectorScore := vectorScore sc; r_compositeScore := compositeScore sc;
     r_matches := firstn 3 (matches sc);
     r_passedVectorFilter := passedVectorFilter sc;
     r_passedCompositeFilter := passedCompositeFilter sc;
     aiAnalysis := ai; skippedAi := skipped; status := s;
     stat_processed := processedCount st; stat_qualified := qualifiedCount st;
     stat_active := smart |}.

Definition set_failFast (st : CycleRef) : CycleRef :=
  {| processedCount := processedCount st; qualifiedCount := qualifiedCount st;
     failFastTriggered := true |}.

Definition incr_processed (st : CycleRef) : CycleRef :=
  {| processedCount := S (processedCount st); qualifiedCount := qualifiedCount st;
     failFastTriggered := failFastTriggered st |}.

Definition incr_qualified (st : CycleRef) : CycleRef :=
  {| processedCount := processedCount st; qualifiedCount := S (qualifiedCount st);
     failFastTriggered := failFastTriggered st |}.

(** One document: new cycle state, new [hasTriggeredSmartModeRef], the
    result record, and the events emitted (ending in the feed entry). *)
Definition process_paper (st : CycleRef) (smart : bool) (d : DocInput)
  : CycleRef * bool * ProcessingResult * list Event :=
  let sc := score_paper cosineSimilarity cfg item queryVector svs d in
  if passes_prefilter sc then
    let st1 := incr_processed st in
    (* 1. FAIL FAST CHECK *)
    if failFast cfg && (speedupSampleCount cfg <=? processedCount st1)%nat
       && (qualifiedCount st1 =? 0)%nat then
      let st2 := set_failFast st1 in
      let r := mk_result d sc st2 smart None true SKIPPED_FAIL_FAST in
      (st2, smart, r, [EvPaper r])
    else
      (* 2. SPEEDUP ELIGIBILITY *)
      let isFirstPaper := (processedCount st1 =? 1)%nat in
      let isSpeedupEligible :=
        negb isFirstPaper && (targetQualifiedCount <=? qualifiedCount st1)%nat in
      let '(smart1, hdr) :=
        if isSpeedupEligible && negb smart
        then (true, [EvHarvestHeader (processedCount st1)])
        else (smart, []) in
      if isSpeedupEligible then
        let st2 := incr_qualified st1 in
        let r := mk_result d sc st2 smart1 None true QUALIFIED_SPEEDUP in
        (st2, smart1, r, hdr ++ [EvPaper r])
      else
        let '(ai, evs) := ai_loop (d_id d) (d_race d) in
        let qualifiedNow := match ai with Some a => a_qualified a | None => false end in
        let st2 := if qualifiedNow then incr_qualified st1 else st1 in
        let s := if qualifiedNow then QUALIFIED else AI_REJECTED in
        let r := mk_result d sc st2 smart1 ai false s in
        (st2, smart1, r, hdr ++ evs ++ [EvPaper r])
  else
    let r := mk_result d sc st smart None true FILTERED_OUT in
    (st, smart, r, [EvPaper r]).

(** [processPaperBatch]: returns the state, the events and whether the
    batch loop should stop. *)
Fixpoint processPaperBatch (st : CycleRef) (smart : bool) (papers : list DocInput)
  : CycleRef * bool * list Event * bool :=
  match papers with
  | [] => (st, smart, [], false)
  | d :: ds =>
      if failFastTriggered st then (st, smart, [], true)
      else
        let '(st1, smart1, _, evs) := process_paper st smart d in
        if failFastTriggered st1 then (st1, smart1, evs, true)
        else
          let '(st2, smart2, evs2, stop) := processPaperBatch st1 smart1 ds in
          (st2, smart2, evs ++ evs2, stop)
  end.

(** A page of the candidate source: a list of papers (empty: exhausted), or
    the PubMed detail download that came back empty. *)
Inductive PageResult :=
| PageOk (papers : list DocInput)
| PageFetchFailed.

Definition BATCH_SIZE : nat := 20.

Variable fetchPage : nat -> nat -> PageResult.

(** The [while (currentStart < STOP_LIMIT)] loop of [handleRunCycle];
    [fuel] bounds the number of turns.  Returns the state, the events and
    [failFastStop]. *)
Fixpoint batch_loop (fuel : nat) (currentStart STOP_LIMIT : nat)
  (st : CycleRef) (smart : bool) : CycleRef * bool * list Event * bool :=
  match fuel with
  | O => (st, smart, [], false)
  | S fuel' =>
      if (currentStart <? STOP_LIMIT)%nat then
        if failFastTriggered st then (st, smart, [], true)
        else
          let size := Nat.min BATCH_SIZE (STOP_LIMIT - currentStart) in
          match fetchPage currentStart size with
          | PageFetchFailed =>
              let '(st2, sm2, evs2, ffs) :=
                batch_loop fuel' (currentStart + BATCH_SIZE) STOP_LIMIT st smart in
              (st2, sm2, EvFetch currentStart size :: EvFetchFailed currentStart :: evs2, ffs)
          | PageOk [] =>
              (st, smart, [EvFetch currentStart size; EvExhausted currentStart], false)
          | PageOk papers =>
              let '(st1, sm1, evs1, shouldStop) := processPaperBatch st smart papers in
              if shouldStop then (st1, sm1, EvFetch currentStart size :: evs1, true)
              else
                let '(st2, sm2, evs2, ffs) :=
                  batch_loop fuel' (currentStart + BATCH_SIZE) STOP_LIMIT st1 sm1 in
                (st2, sm2, EvFetch currentStart size :: evs1 ++ evs2, ffs)
          end
      else (st, smart, [], false)
  end.

Definition STOP_LIMIT : nat :=
  if (0 <? stopRec item)%nat then stopRec item else 1000.

(** One query of [handleRunCycle]: reset of the cycle state, the batch
    loop, and the closing [CYCLE_COMPLETE] block. *)
Definition run_query : CycleRef * list Event :=
  let '(st, _, evs, failFastStop) :=
    batch_loop (S STOP_LIMIT) (startRec item) STOP_LIMIT cycle_reset false in
  (st, evs ++ [EvComplete failFastStop]).

End Engine.

(* ------------------------------------------------------------------ *)
(** ** [analyzePaper] of the two services imported by App.tsx *)

(** The parsed JSON of one inference: [qualified], [score] and
    [probability] as the model wrote them ([None] when the key is absent). *)
Record OracleJson := {
  j_qualified : bool;
  j_score : option Q;
  j_probability : option Q
}.

(** One inference run: the parsed JSON, a response that is not JSON
    ([JSON.parse] throws), a transport error, or an [AbortError]. *)
Inductive Inference :=
| IOk (j : OracleJson)
| IMalformed (msg : string)
| IErr (msg : string)
| IAbort.

(** What [analyzePaper] does: resolve with an analysis, or reject. *)
Inductive ServiceOutcome :=
| SvcOk (a : Analysis)
| SvcThrow.

Inductive Provider := Gemini | Ollama.

(** [json.score ?? 0], [json.probability ?? 0] *)
Definition score_or0 (j : OracleJson) : Q :=
  match j_score j with Some s => s | None => 0 end.

Definition probability_or0 (j : OracleJson) : Q :=
  match j_probability j with Some p => p | None => 0 end.

(** The returned object (identical in both services):
    [qualified: !!json.qualified || rawScore >= 6],
    [score: Math.min(rawScore, 10)], [probability: json.probability ?? 0]. *)
Definition analysis_of_json (summary : string) (j : OracleJson) : Analysis :=
  let rawScore := score_or0 j in
  {| a_qualified := j_qualified j || Qle_bool 6 rawScore;
     a_score := Qmin rawScore 10;
     a_summary := summary;
     a_probability := probability_or0 j |}.

(** [json.probability === 0] *)
Definition probability_is_zero (j : OracleJson) : bool :=
  match j_probability j with Some p => Qeq_bool p 0 | None => false end.

(** [retryJson.probability > 0] *)
Definition probability_positive (j : OracleJson) : bool :=
  match j_probability j with Some p => negb (Qle_bool p 0) | None => false end.

Definition failed_analysis (summary : string) : Analysis :=
  {| a_qualified := false; a_score := 0; a_summary := summary; a_probability := 0 |}.

(** services/ollamaService.ts, [analyzePaper]: [runInference isRetry] is the
    outcome of the inference with the original prompt ([false]) or with the
    CRITICAL CORRECTION prompt ([true]).  Returns the outcome and the list of
    prompts sent, in order. *)
Definition ollama_analyzePaper (summaryOf : OracleJson -> string)
  (runInference : bool -> Inference) : ServiceOutcome * list bool :=
  match runInference false with
  | IOk json0 =>
      if probability_is_zero json0 then
        match runInference true with
        | IOk retryJson =>
            let json := if probability_positive retryJson then retryJson else json0 in
            (SvcOk (analysis_of_json (summaryOf json) json), [false; true])
        | _ => (SvcOk (analysis_of_json (summaryOf json0) json0), [false; true])
        end
      else (SvcOk (analysis_of_json (summaryOf json0) json0), [false])
  | IMalformed msg | IErr msg =>
      (SvcOk (failed_analysis (append "Error: " msg)), [false])
  | IAbort => (SvcThrow, [false])
  end.

(** services/geminiService.ts, [analyzePaper]: one inference; a response
    that does not parse gives ["Analysis Parse Error"], any other failure
    ["Error during analysis"]. *)
Definition gemini_analyzePaper (summaryOf : OracleJson -> string)
  (runInference : bool -> Inference) : ServiceOutcome * list bool :=
  match runInference false with
  | IOk json => (SvcOk (analysis_of_json (summaryOf json) json), [false])
  | IMalformed _ => (SvcOk (failed_analysis "Analysis Parse Error"), [false])
  | IErr _ | IAbort => (SvcOk (failed_analysis "Error during analysis"), [false])
  end.

Definition analyzePaper (p : Provider) : (OracleJson -> string) -> (bool -> Inference)
  -> ServiceOutcome * list bool :=
  match p with
  | Gemini => gemini_analyzePaper
  | Ollama => ollama_analyzePaper
  end.

(** How App.tsx sees the service in the race: [.then(res => SUCCESS)]
    [.catch(err => ERROR)]. *)
Definition race_of_service (o : ServiceOutcome) : RaceResult :=
  match o with
  | SvcOk a => RSuccess a
  | SvcThrow => RError
  end.

(* ------------------------------------------------------------------ *)
(** ** Spec-side reading of the fast-path rule (spec, section 4.3, step 4),
    kept apart from the code's rule to be compared with it. *)

(** (a) not the first pre-filtered document, (b) [processedCount > N] or
    [qualifiedCount > 0], (c) [qualifiedCount / processedCount >= R];
    [processed] and [qualified] are the counts after step 2. *)
Definition spec_fast_path_eligible (N : nat) (R : Q) (processed qualified : nat) : bool :=
  negb (processed =? 1)%nat
  && ((N <? processed)%nat || (0 <? qualified)%nat)
  && Qle_bool R (inject_Z (Z.of_nat qualified) / inject_Z (Z.of_nat processed)).

(** Spec-side composite score: the average of the top 6 signed
    contributions, or of all of them when there are fewer than 6. *)
Definition spec_composite (ws : list Q) : Q :=
  let top := firstn 6 (sort_desc ws) in
  Qsum top / inject_Z (Z.of_nat (List.length top)).

(** Spec-side match list: one record per rule whose raw similarity exceeds
    0.35, in the order of the rule configuration. *)
Definition above_threshold (s : Q) : bool := negb (Qle_bool s (35 # 100)).

Definition match_of (cosineSimilarity : Embedding -> Embedding -> Q)
  (pv : Embedding) (sv : SentenceVector) : Match :=
  let similarity := cosineSimilarity (sv_vector sv) pv in
  {| m_sentenceId := sv_id sv; m_tag := sv_customTag sv;
     m_netScore := weighted sv similarity; m_rawScore := similarity |}.

Definition rule_matches (cosineSimilarity : Embedding -> Embedding -> Q)
  (pv : Embedding) (svs : list SentenceVector) : list Match :=
  map (match_of cosineSimilarity pv)
    (filter (fun sv => above_threshold (cosineSimilarity (sv_vector sv) pv)) svs).

(** The signed contributions of the rules to a document. *)
Definition contributions (cosineSimilarity : Embedding -> Embedding -> Q)
  (pv : Embedding) (svs : list SentenceVector) : list Q :=
  map (fun sv => weighted sv (cosineSimilarity (sv_vector sv) pv)) svs.

(** Sorted highest first. *)
Definition sorted_desc (l : list Q) : Prop := Sorted (fun x y => y <= x) l.

(* ------------------------------------------------------------------ *)
(** ** Reading a trace *)

(** A feed entry recording the fail-fast abort. *)
Definition is_abort (e : Event) : bool :=
  match e with
  | EvPaper r => Status_eqb (status r) SKIPPED_FAIL_FAST
  | _ => false
  end.

(** What the run does after its first fail-fast abort record. *)
Fixpoint after_first_abort (evs : list Event) : option (list Event) :=
  match evs with
  | [] => None
  | e :: evs' => if is_abort e then Some evs' else after_first_abort evs'
  end.

Definition no_abort (evs : list Event) : bool := forallb (fun e => negb (is_abort e)) evs.

(** The statuses of the feed entries of a trace, in order. *)
Definition feed_statuses (evs : list Event) : list Status :=
  flat_map (fun e => match e with EvPaper r => [status r] | _ => [] end) evs.

(** The judgment loop of a document does not end in a qualification. *)
Definition judgment_rejects (d : DocInput) : bool :=
  match fst (ai_loop (d_id d) (d_race d)) with
  | Some a => negb (a_qualified a)
  | None => true
  end.

(** An event of the fast-path regime: no judgment call, and every feed
    entry of a document that passed the pre-filter is QUALIFIED_SPEEDUP. *)
Definition fast_path_event (e : Event) : Prop :=
  match e with
  | EvAnalyze _ => False
  | EvPaper r =>
      r_passedVectorFilter r || r_passedCompositeFilter r = true ->
      status r = QUALIFIED_SPEEDUP
  | _ => True
  end.

Definition count_prefiltered cos cfg item qv svs (ds : list DocInput) : nat :=
  List.length (filter (fun d => passes_prefilter (score_paper cos cfg item qv svs d)) ds).

(** An inference that did not produce a parsed JSON object. *)
Definition failed_inference (i : Inference) : Prop :=
  match i with IOk _ => False | _ => True end.

(** The judgment of a document fails: after any number of operator
    retries the race resolves with an error of the call, the 70 s timeout,
    or the result of a service whose inference failed (exception, malformed
    response). *)
Definition judgment_failure (rs : list RaceResult) : Prop :=
  exists k r rest,
    rs = repeat RRetry k ++ r :: rest
    /\ (r = RError \/ r = RTimeout
        \/ exists prov summaryOf runInference,
              failed_inference (runInference false)
              /\ r = race_of_service (fst (analyzePaper prov summaryOf runInference))).

(** A race resolution as the judgment loop can see it: a [SUCCESS] carries
    the object a call of [aiService.analyzePaper] resolved with (each turn
    makes its own call, so its own inferences); the other resolutions
    (error, timeout, SKIP, RETRY) carry no analysis of the service. *)
Definition service_race (prov : Provider) (summaryOf : OracleJson -> string)
  (r : RaceResult) : Prop :=
  match r with
  | RSuccess a => exists runInference,
      fst (analyzePaper prov summaryOf runInference) = SvcOk a
  | _ => True
  end.

(** The diagnostic summaries the code writes on a failed judgment. *)
Definition diagnostic_summary (s : string) : Prop :=
  s = "Analysis Failed (Error)"%string \/ s = "Analysis Timed Out (Auto-skipped)"%string
  \/ s = "Analysis Parse Error"%string \/ s = "Error during analysis"%string
  \/ exists msg, s = append "Error: " msg.

(* ------------------------------------------------------------------ *)
(** ** Sample inputs

    Embeddings of length 1 in the plane with rational coordinates; on such
    vectors the cosine similarity is the dot product, which is what
    [unit_cos] computes. *)

Definition unit_cos (a b : Embedding) : Q :=
  fold_left Qplus (map (fun '(x, y) => x * y) (combine a b)) 0.

Definition sample_cfg : AppConfig :=
  {| failFast := true; speedupSampleCount := 10; speedupQualifyRate := 1 # 2;
     minVectorScore := 1 # 2; minCompositeScore := 1 # 2 |}.

Definition sample_item : QueueItem :=
  {| vecMin := None; compMin := None; startRec := 0; stopRec := 0 |}.

Definition sample_query : option Embedding := Some [1; 0].

Definition rejecting_analysis : Analysis :=
  {| a_qualified := false; a_score := 2; a_summary := "not relevant";
     a_probability := 1 |}.

(** A document at cosine 3/5 from the query (passes [vecMin = 1/2]). *)
Definition relevant_doc (i : nat) (rs : list RaceResult) : DocInput :=
  {| d_id := i; d_vector := Some [3 # 5; 4 # 5]; d_race := rs |}.

(** A document orthogonal to the query (filtered out). *)
Definition unrelated_doc (i : nat) : DocInput :=
  {| d_id := i; d_vector := Some [0; 1]; d_race := [] |}.

Definition rule_x : SentenceVector :=
  {| sv_id := 1; sv_text := "x"; sv_customTag := "X"; sv_positive := true;
     sv_vector := [1; 0] |}.

Definition rule_y : SentenceVector :=
  {| sv_id := 2; sv_text := "y"; sv_customTag := "Y"; sv_positive := true;
     sv_vector := [0; 1] |}.

Definition sample_summary (_ : OracleJson) : string := "- Mechanistic Insight".

(** An oracle answer with the boolean off but a middling score and a high
    probability. *)
Definition json_score5_prob7 : OracleJson :=
  {| j_qualified := false; j_score := Some 5; j_probability := Some 7 |}.

(** An oracle answer on a 0-1 scale for the score and out of range for the
    probability. *)
Definition json_fractional : OracleJson :=
  {| j_qualified := false; j_score := Some (1 # 2); j_probability := Some 42 |}.

(** An oracle answer with probability 0. *)
Definition json_prob0 : OracleJson :=
  {| j_qualified := false; j_score := Some 3; j_probability := Some 0 |}.

Definition always (j : OracleJson) : bool -> Inference := fun _ => IOk j.

(* ------------------------------------------------------------------ *)
(** ** The feed, the export collector and [setStats] of [processPaperBatch] *)

(** [status === 'QUALIFIED' || status === 'QUALIFIED_SPEEDUP']: the test of
    [exportCollector.push], of the [qualified] statistic and of
    [handleExport]. *)
Definition is_qualified_status (s : Status) : bool :=
  Status_eqb s QUALIFIED || Status_eqb s QUALIFIED_SPEEDUP.

(** The [PAPER] entries of a feed, in order. *)
Definition feed_results (evs : list Event) : list ProcessingResult :=
  flat_map (fun e => match e with EvPaper r => [r] | _ => [] end) evs.

(** The record windows [(currentStart, currentBatchSize)] requested from
    the candidate source, in order. *)
Definition fetch_windows (evs : list Event) : list (nat * nat) :=
  flat_map (fun e => match e with EvFetch o n => [(o, n)] | _ => [] end) evs.

(** [exportCollector]: the qualified results, in feed order; its length is
    the [qualifiedCount] of the [CYCLE_COMPLETE] block. *)
Definition export_collector (evs : list Event) : list ProcessingResult :=
  filter (fun r => is_qualified_status (status r)) (feed_results evs).

(** Results of documents that passed the pre-filter. *)
Definition prefiltered_results (evs : list Event) : list ProcessingResult :=
  filter (fun r => negb (Status_eqb (status r) FILTERED_OUT)) (feed_results evs).

(** Results of documents sent to the judgment service. *)
Definition judged_results (evs : list Event) : list ProcessingResult :=
  filter (fun r => Status_eqb (status r) QUALIFIED || Status_eqb (status r) AI_REJECTED)
    (feed_results evs).

Record CycleStats := {
  totalScanned : nat;
  passedVector : nat;
  aiAnalyzed : nat;
  qualified : nat;
  speedupActive : bool;
  energySaved : nat
}.

(** The [setStats(prev => ...)] update made after every paper. *)
Definition stats_update (prev : CycleStats) (r : ProcessingResult) : CycleStats :=
  {| totalScanned := totalScanned prev + 1;
     passedVector := passedVector prev + (if r_passedVectorFilter r then 1 else 0);
     aiAnalyzed := aiAnalyzed prev + (if skippedAi r then 0 else 1);
     qualified := qualified prev + (if is_qualified_status (status r) then 1 else 0);
     speedupActive := stat_active r;
     energySaved := energySaved prev + (if skippedAi r then 1 else 0) |}.

(** The statistics after the papers of a feed. *)
Definition feed_stats (s : CycleStats) (evs : list Event) : CycleStats :=
  fold_left stats_update (feed_results evs) s.

(* ------------------------------------------------------------------ *)
(** ** [exportService.generateRIS] and the export path of [App]
    ([handleExport], [runSpeedupJobExport]) *)

(** JS truthiness of a string: only [""] is falsy. *)
Definition truthy (s : string) : bool := negb (String.eqb s EmptyString).

Definition opt_truthy (s : option string) : bool :=
  match s with Some s => truthy s | None => false end.

Definition nl : string := String (Ascii.ascii_of_nat 10) EmptyString.

(** [Paper] of types.ts (the fields [generateRIS] reads). *)
Record Paper := {
  p_id : string;
  p_title : string;
  p_abstract : string;
  p_authors : list string;
  p_year : Q;
  p_url : string;
  p_doi : option string
}.

(** [aiAnalysis] of a [ProcessingResult] as the export reads it. *)
Record ExportAnalysis := {
  x_summary : string;
  x_score : Q;
  x_tags : list string
}.

(** The parts of a [ProcessingResult] the export reads. *)
Record ExportResult := {
  x_status : Status;
  x_querySource : string;
  x_ai : option ExportAnalysis
}.

(** [{ paper: Paper; result: ProcessingResult }] *)
Record ExportItem := {
  x_paper : Paper;
  x_result : ExportResult
}.

Section RisExport.

Local Open Scope string_scope.

(** The conversion of a number inside a template literal. *)
Variable numToString : Q -> string.

(** [r.result.status === 'QUALIFIED' || r.result.status === 'QUALIFIED_TURBO'];
    ['QUALIFIED_TURBO'] is not one of the [status] values, so the second
    test never holds. *)
Definition ris_qualified (it : ExportItem) : bool :=
  Status_eqb (x_status (x_result it)) QUALIFIED.

(** [${result.aiAnalysis?.score || 'N/A'}]: a score of 0 is falsy. *)
Definition score_text (r : ExportResult) : string :=
  match x_ai r with
  | Some a => if Qeq_bool (x_score a) 0 then "N/A" else numToString (x_score a)
  | None => "N/A"
  end.

(** The text the [forEach] callback appends for one item. *)
Definition ris_record (it : ExportItem) : string :=
  let p := x_paper it in
  let r := x_result it in
  let abstract :=
    match x_ai r with
    | Some a => if truthy (x_summary a)
                then p_abstract p ++ " [AI SUMMARY: " ++ x_summary a ++ "]"
                else p_abstract p
    | None => p_abstract p
    end in
  "TY  - JOUR" ++ nl
  ++ "TI  - " ++ p_title p ++ nl
  ++ fold_left (fun acc author => acc ++ "AU  - " ++ author ++ nl) (p_authors p) ""
  ++ "AB  - " ++ abstract ++ nl
  ++ "PY  - " ++ numToString (p_year p) ++ nl
  ++ (if opt_truthy (p_doi p)
      then "DO  - " ++ match p_doi p with Some d => d | None => "" end ++ nl
      else "")
  ++ (if truthy (p_url p) then "UR  - " ++ p_url p ++ nl else "")
  ++ "N1  - EcoScholar Score: " ++ score_text r ++ nl
  ++ "KW  - " ++ x_querySource r ++ nl
  ++ match x_ai r with
     | Some a => fold_left (fun acc tag => acc ++ "KW  - " ++ tag ++ nl) (x_tags a) ""
     | None => ""
     end
  ++ "ER  - " ++ nl ++ nl.

Definition generateRIS (results : list ExportItem) : string :=
  let qualifiedItems := filter ris_qualified results in
  match qualifiedItems with
  | [] => ""
  | _ => fold_left (fun risContent it => risContent ++ ris_record it) qualifiedItems ""
  end.

(** The Zotero settings [runSpeedupJobExport] reads. *)
Record ZoteroSettings := {
  useLocalZotero : bool;
  zoteroApiKey : option string;
  zoteroLibraryId : option string
}.

(** The effect of an export: the alert of an empty export, an upload of
    the items to Zotero, a download of an RIS file, or nothing. *)
Inductive ExportAction :=
| ExAlertNoQualified
| ExUpload (items : list ExportItem)
| ExDownload (content : string)
| ExNothing.

(** [runSpeedupJobExport]; [userWantsRis] is the answer to
    [confirm("Zotero Config Missing. Download RIS?")]. *)
Definition runSpeedupJobExport (uploadToZotero : bool) (zs : ZoteroSettings)
  (userWantsRis : bool) (items : list ExportItem) : ExportAction :=
  match items with
  | [] => ExNothing
  | _ =>
      let missingKeys :=
        negb (useLocalZotero zs)
        && (negb (opt_truthy (zoteroApiKey zs)) || negb (opt_truthy (zoteroLibraryId zs))) in
      let useZotero :=
        if uploadToZotero then
          if missingKeys then (if userWantsRis then Some false else None) else Some true
        else Some false in
      match useZotero with
      | None => ExNothing
      | Some true => ExUpload items
      | Some false =>
          let risContent := generateRIS items in
          if truthy risContent then ExDownload risContent else ExNothing
      end
  end.

(** An entry of the results feed: a [PAPER] entry or one of the others
    ([HEADER], [HARVEST_HEADER], [CYCLE_COMPLETE]). *)
Inductive FeedItem :=
| FPaper (it : ExportItem)
| FOther.

(** The qualified papers of the feed, as [handleExport] collects them. *)
Definition export_items (results : list FeedItem) : list ExportItem :=
  filter (fun it => is_qualified_status (x_status (x_result it)))
    (flat_map (fun f => match f with FPaper it => [it] | FOther => [] end) results).

Definition handleExport (results : list FeedItem) (uploadToZotero : bool)
  (zs : ZoteroSettings) (userWantsRis : bool) : ExportAction :=
  match export_items results with
  | [] => ExAlertNoQualified
  | paperItems => runSpeedupJobExport uploadToZotero zs userWantsRis paperItems
  end.

End RisExport.

(* ------------------------------------------------------------------ *)
(** ** [handleNetworkLog] of App: the network log list *)

Section NetworkLogs.

(** The values of the other properties of a log object. *)
Variable V : Type.

(** A [NetworkLog]: its [id] and its other properties, in key order. *)
Record NetworkLog := {
  log_id : string;
  log_props : list (string * V)
}.

Fixpoint prop_lookup (k : string) (ps : list (string * V)) : option V :=
  match ps with
  | [] => None
  | (k', v) :: ps' => if String.eqb k' k then Some v else prop_lookup k ps'
  end.

(** One property assignment of an object spread: an existing key keeps its
    place and takes the new value, a new key is added at the end. *)
Definition set_prop (ps : list (string * V)) (kv : string * V) : list (string * V) :=
  let '(k, v) := kv in
  match prop_lookup k ps with
  | Some _ => map (fun '(k', v') => if String.eqb k' k then (k', v) else (k', v')) ps
  | None => ps ++ [(k, v)]
  end.

(** [{ ...l, ...log }] *)
Definition spread (l log : NetworkLog) : NetworkLog :=
  {| log_id := log_id log;
     log_props := fold_left set_prop (log_props log) (log_props l) |}.

(** The [setNetworkLogs(prev => ...)] update of [handleNetworkLog]. *)
Definition handleNetworkLog (prev : list NetworkLog) (log : NetworkLog) : list NetworkLog :=
  let exists_ := existsb (fun l => String.eqb (log_id l) (log_id log)) prev in
  if exists_ then
    map (fun l => if String.eqb (log_id l) (log_id log) then spread l log else l) prev
  else
    let all := prev ++ [log] in
    skipn (List.length all - 200) all.


End NetworkLogs.

Arguments log_id {V}.
Arguments log_props {V}.
Arguments Build_NetworkLog {V}.

(* ------------------------------------------------------------------ *)
(** ** The query queue of App: [updateQueueStatus], [handleCancel] and the
    choice of the queries a run processes *)

Inductive QueueStatus := READY | RUNNING | COMPLETED | NEEDS_ADJUSTMENT | CANCELLED.

Definition QueueStatus_eqb (a b : QueueStatus) : bool :=
  match a, b with
  | READY, READY | RUNNING, RUNNING | COMPLETED, COMPLETED
  | NEEDS_ADJUSTMENT, NEEDS_ADJUSTMENT | CANCELLED, CANCELLED => true
  | _, _ => false
  end.

(** The fields of a queue entry these functions read or write. *)
Record QueueEntry := {
  q_id : string;
  q_status : QueueStatus;
  q_yield : option string
}.

(** [Array.prototype.map] with the index, from [i]. *)
Fixpoint map_from {A B} (f : nat -> A -> B) (i : nat) (l : list A) : list B :=
  match l with
  | [] => []
  | x :: l' => f i x :: map_from f (S i) l'
  end.

(** [updateQueueStatus(index, status, extra)]; [extra] is [{ yield }] or
    absent. *)
Definition updateQueueStatus (prev : list QueueEntry) (index : nat) (status : QueueStatus)
  (extra : option string) : list QueueEntry :=
  map_from (fun i item =>
              if (i =? index)%nat then
                {| q_id := q_id item; q_status := status;
                   q_yield := match extra with Some y => Some y | None => q_yield item end |}
              else item) 0 prev.

(** The state [handleCancel] reads and writes. *)
Record CancelState := {
  hasController : bool;
  c_queue : list QueueEntry;
  c_isProcessing : bool;
  c_processingState : bool
}.

Definition handleCancel (s : CancelState) : CancelState :=
  if hasController s then
    {| hasController := false;
       c_queue := map (fun item =>
                         if QueueStatus_eqb (q_status item) RUNNING
                         then {| q_id := q_id item; q_status := CANCELLED; q_yield := q_yield item |}
                         else item) (c_queue s);
       c_isProcessing := false;
       c_processingState := false |}
  else s.

(** [q.status === 'READY' || q.status === 'NEEDS_ADJUSTMENT'] *)
Definition is_pending (s : QueueStatus) : bool :=
  QueueStatus_eqb s READY || QueueStatus_eqb s NEEDS_ADJUSTMENT.

Inductive RunMode := RunSingle | RunCycle.

(** [targetIds] of [handleRunCycle]. *)
Definition targetIds (mode : RunMode) (currentQueue : list QueueEntry) : list string :=
  match mode with
  | RunSingle =>
      match find (fun q => is_pending (q_status q)) currentQueue with
      | Some first => [q_id first]
      | None => []
      end
  | RunCycle => map q_id (filter (fun q => is_pending (q_status q)) currentQueue)
  end.

(** [finalStatus] of a query of [handleRunCycle]. *)
Definition finalStatus (failFastStop : bool) : QueueStatus :=
  if failFastStop then NEEDS_ADJUSTMENT else COMPLETED.

(* ------------------------------------------------------------------ *)
(** ** The embedding of a batch in [processPaperBatch]: chunks of 5 *)

Section Embeddings.

Variables (P E : Type).
(** [aiServiceRef.current!.getEmbedding] of one paper, when it resolves. *)
Variable getEmbedding : P -> E.
(** [signal.aborted] when the loop reaches the chunk at offset [c]. *)
Variable aborted : nat -> bool.

(** [for (let c = 0; c < papers.length; c += 5)]: [fuel] bounds the turns. *)
Fixpoint chunk_loop (fuel c : nat) (papers : list P) : list E :=
  match fuel with
  | O => []
  | S fuel' =>
      if (c <? List.length papers)%nat then
        if aborted c then []
        else map getEmbedding (firstn 5 (skipn c papers)) ++ chunk_loop fuel' (c + 5) papers
      else []
  end.

Definition paperEmbeddings (papers : list P) : list E :=
  chunk_loop (List.length papers) 0 papers.

End Embeddings.

(* ------------------------------------------------------------------ *)
(** ** [retryWithBackoff] of the Gemini service *)

(** [s.includes(sub)] *)
Definition includes (s sub : string) : bool :=
  match String.index 0 sub s with Some _ => true | None => false end.

(** The fields of a caught error the retry test reads. *)
Record ApiError := {
  e_status : option Z;
  e_code : option Z;
  e_message : option string
}.

Definition opt_Z_is (o : option Z) (n : Z) : bool :=
  match o with Some z => Z.eqb z n | None => false end.

Definition msg_includes (o : option string) (sub : string) : bool :=
  match o with Some m => includes m sub | None => false end.

Definition isRateLimit (error : ApiError) : bool :=
  opt_Z_is (e_status error) 429 || opt_Z_is (e_code error) 429
  || msg_includes (e_message error) "429"%string
  || msg_includes (e_message error) "quota"%string
  || msg_includes (e_message error) "RESOURCE_EXHAUSTED"%string.

Definition isServerOverload (error : ApiError) : bool :=
  opt_Z_is (e_status error) 503 || opt_Z_is (e_code error) 503.

Definition retryable (error : ApiError) : bool := isRateLimit error || isServerOverload error.

Inductive OpOutcome (T : Type) := OpOk (v : T) | OpErr (e : ApiError).
Arguments OpOk {T}.
Arguments OpErr {T}.

(** The promise [retryWithBackoff] settles with: resolved, or rejected with
    the error ([None] is [undefined], the initial [lastError]). *)
Inductive RetryResult (T : Type) := Returned (v : T) | Thrown (e : option ApiError).
Arguments Returned {T}.
Arguments Thrown {T}.

Section Retry.

Variable T : Type.
(** The outcome of the [i]-th call of [operation()]; the waits between
    calls do not change what is returned. *)
Variable operation : nat -> OpOutcome T.

(** The loop from attempt [i] with [remaining] attempts left; it also
    returns the number of calls made. *)
Fixpoint retry_loop (i remaining : nat) (lastError : option ApiError) : RetryResult T * nat :=
  match remaining with
  | O => (Thrown lastError, O)
  | S r =>
      match operation i with
      | OpOk v => (Returned v, 1%nat)
      | OpErr error =>
          if isRateLimit error || isServerOverload error then
            let '(res, n) := retry_loop (S i) r (Some error) in (res, S n)
          else (Thrown (Some error), 1%nat)
      end
  end.

Definition retryWithBackoff (maxRetries : nat) : RetryResult T * nat :=
  retry_loop 0 maxRetries None.

End Retry.

Arguments retry_loop {T}.
Arguments retryWithBackoff {T}.

(* ------------------------------------------------------------------ *)
(** ** [cleanThinkTags] of the Ollama service and the JSON text of
    [runInference]; strings are taken as sequences of 8-bit code units *)

(** The white space and line terminators [String.prototype.trim] removes,
    among the code units 0..255. *)
Definition is_ws (c : Ascii.ascii) : bool :=
  let n := Ascii.nat_of_ascii c in
  (n =? 9)%nat || (n =? 10)%nat || (n =? 11)%nat || (n =? 12)%nat || (n =? 13)%nat
  || (n =? 32)%nat || (n =? 160)%nat.

Fixpoint trim_start (s : string) : string :=
  match s with
  | EmptyString => EmptyString
  | String c s' => if is_ws c then trim_start s' else s
  end.

Fixpoint trim_end (s : string) : string :=
  match s with
  | EmptyString => EmptyString
  | String c s' =>
      match trim_end s' with
      | EmptyString => if is_ws c then EmptyString else String c EmptyString
      | r => String c r
      end
  end.

(** [s.trim()] *)
Definition trim (s : string) : string := trim_start (trim_end s).

(** [text.split(sep)] followed by [parts[parts.length - 1]]: the text is
    scanned left to right, an occurrence of [sep] at the scan position ends
    the current part and is skipped ([skip] counts the code units still to
    skip); [cur] is the current part. *)
Fixpoint split_last (sep : string) (skip : nat) (s cur : string) : string :=
  match s with
  | EmptyString => cur
  | String c s' =>
      match skip with
      | S k => split_last sep k s' cur
      | O =>
          if String.prefix sep s then split_last sep (String.length sep - 1) s' EmptyString
          else split_last sep 0 s' (cur ++ String c EmptyString)
      end
  end.

(** The case folding of a regular expression with the [i] flag, on the
    code units 0..255 against the ASCII patterns used here. *)
Definition lower (c : Ascii.ascii) : Ascii.ascii :=
  let n := Ascii.nat_of_ascii c in
  if (65 <=? n)%nat && (n <=? 90)%nat then Ascii.ascii_of_nat (n + 32) else c.

Definition ci_eq (c d : Ascii.ascii) : bool := Ascii.eqb (lower c) (lower d).

(** [pat] matches at the start of [s], ignoring case. *)
Fixpoint ci_prefix (pat s : string) : bool :=
  match pat, s with
  | EmptyString, _ => true
  | String p pat', String c s' => ci_eq p c && ci_prefix pat' s'
  | String _ _, EmptyString => false
  end.

(** The first position of [s] where [pat] matches, ignoring case. *)
Fixpoint ci_index (pat s : string) : option nat :=
  if ci_prefix pat s then Some 0%nat
  else match s with
       | EmptyString => None
       | String _ s' => option_map S (ci_index pat s')
       end.

Fixpoint drop_str (n : nat) (s : string) : string :=
  match n, s with
  | O, _ => s
  | S n', String _ s' => drop_str n' s'
  | S _, EmptyString => EmptyString
  end.

(** [text.replace(re, '')] for a global regular expression: [m s] is the
    length of the match of [re] at the start of [s], if any; the scan goes
    on after a match, one code unit further otherwise. *)
Fixpoint replace_all (m : string -> option nat) (skip : nat) (s : string) : string :=
  match s with
  | EmptyString => EmptyString
  | String c s' =>
      match skip with
      | S k => replace_all m k s'
      | O =>
          match m s with
          | Some n => replace_all m (n - 1) s'
          | None => String c (replace_all m 0 s')
          end
      end
  end.

(** [/<think>[\s\S]*?<\/think>/gi] at the start of [s]: the lazy repetition
    ends at the first [</think>] after the opening tag. *)
Definition think_match (s : string) : option nat :=
  if ci_prefix "<think>"%string s then
    match ci_index "</think>"%string (drop_str 7 s) with
    | Some k => Some (7 + k + 8)%nat
    | None => None
    end
  else None.

(** [/<\/think>/gi] *)
Definition close_match (s : string) : option nat :=
  if ci_prefix "</think>"%string s then Some 8%nat else None.

(** [/```json|```/g]: the first alternative is tried first. *)
Definition fence_match (s : string) : option nat :=
  if String.prefix "```json"%string s then Some 7%nat
  else if String.prefix "```"%string s then Some 3%nat
  else None.

Definition ollama_cleanThinkTags (text : string) : string :=
  if String.eqb text EmptyString then EmptyString
  else if includes text "|im_sep|"%string then
    trim (split_last "|im_sep|"%string 0 text EmptyString)
  else if includes text "<|im_sep|>"%string then
    trim (split_last "<|im_sep|>"%string 0 text EmptyString)
  else
    let cleaned := replace_all think_match 0 text in
    let cleaned := replace_all close_match 0 cleaned in
    trim cleaned.

(** The text [runInference] hands to [JSON.parse]. *)
Definition inference_json_text (response : string) : string :=
  trim (replace_all fence_match 0 (ollama_cleanThinkTags response)).

(** [cleanThinkTags] of the Gemini service. *)
Definition gemini_cleanThinkTags (text : string) : string :=
  if String.eqb text EmptyString then EmptyString
  else trim (replace_all think_match 0 text).

(* ------------------------------------------------------------------ *)
(** ** The Zotero service: [truncate], [sanitizeTag], the tags of
    [formatItem], and [uploadItems] *)

(** [truncate(str, maxLen)]; [substring(0, maxLen - 3)] takes no code unit
    when [maxLen < 3], as the truncated subtraction on [nat] does. *)
Definition truncate (str : string) (maxLen : nat) : string :=
  if String.eqb str EmptyString then EmptyString
  else if (String.length str <=? maxLen)%nat then str
  else (substring 0 (maxLen - 3) str ++ "...")%string.

(** The code units kept by [/[^a-zA-Z0-9 \-_]/g]. *)
Definition tag_char (c : Ascii.ascii) : bool :=
  let n := Ascii.nat_of_ascii c in
  ((97 <=? n) && (n <=? 122))%nat || ((65 <=? n) && (n <=? 90))%nat
  || ((48 <=? n) && (n <=? 57))%nat || (n =? 32)%nat || (n =? 45)%nat || (n =? 95)%nat.

(** [str.replace(re, '')] for a one-code-unit class [re]. *)
Fixpoint filter_str (keep : Ascii.ascii -> bool) (s : string) : string :=
  match s with
  | EmptyString => EmptyString
  | String c s' => if keep c then String c (filter_str keep s') else filter_str keep s'
  end.

Definition sanitizeTag (tag : string) : string :=
  let clean := trim (filter_str tag_char tag) in
  if (50 <? String.length clean)%nat then substring 0 50 clean else clean.

(** Every code unit of [s] satisfies [p]. *)
Fixpoint str_all (p : Ascii.ascii -> bool) (s : string) : bool :=
  match s with
  | EmptyString => true
  | String c s' => p c && str_all p s'
  end.

(** [rawTags] of [formatItem]: ["EcoScholar"], [result.querySource], the AI
    tags, the tag of the first rule match, and ["AI_Qualified"] or [""];
    [None] is [undefined]. *)
Definition rawTags (querySource : string) (aiTags : option (list string))
  (firstMatchTag : option string) (aiQualified : option bool) : list (option string) :=
  [Some "EcoScholar"%string; Some querySource]
  ++ map Some (match aiTags with Some ts => ts | None => [] end)
  ++ [firstMatchTag;
      Some (match aiQualified with Some true => "AI_Qualified"%string | _ => EmptyString end)].

(** [rawTags.filter(t => t && typeof t === 'string').map(sanitize)
    .filter(t => t.tag.length > 2)] *)
Definition formatTags (raw : list (option string)) : list string :=
  filter (fun t => (2 <? String.length t)%nat)
    (map sanitizeTag
       (flat_map (fun o => match o with Some t => if truthy t then [t] else [] | None => [] end) raw)).

Inductive DupStatus := DUP_DUPLICATE | DUP_UNCERTAIN | DUP_NEW.

Inductive UploadStatus := UPLOADED | DUPLICATE | UNCERTAIN | ERROR.

Record ZoteroResult := {
  paperTitle : string;
  z_status : UploadStatus;
  details : option string
}.

(** How the [POST] of an item settles: [response.ok], a rejection with the
    response text, or an exception with its message. *)
Inductive PostOutcome := PostOk | PostRejected (errText : string) | PostException (message : string).

(** [this.libraryId] of the service built by [runSpeedupJobExport]. *)
Definition service_libraryId (zs : ZoteroSettings) : string :=
  trim (match zoteroLibraryId zs with Some l => l | None => EmptyString end).

Section Upload.

(** The answers of the server for an item: [checkDuplicateStatus] and the
    [POST] of the formatted item. *)
Variable checkDuplicateStatus : ExportItem -> DupStatus.
Variable postItem : ExportItem -> PostOutcome.

(** The [for] loop of [uploadItems]: the reports, and the titles of the
    items sent in a [POST], in order. *)
Fixpoint upload_loop (useLocal : bool) (items : list ExportItem) : list ZoteroResult * list string :=
  match items with
  | [] => ([], [])
  | item :: rest =>
      let '(results, posted) := upload_loop useLocal rest in
      let title := p_title (x_paper item) in
      let post :=
        match postItem item with
        | PostOk => ({| paperTitle := title; z_status := UPLOADED; details := None |} :: results,
                     title :: posted)
        | PostRejected errText =>
            ({| paperTitle := title; z_status := ERROR; details := Some errText |} :: results,
             title :: posted)
        | PostException msg =>
            ({| paperTitle := title; z_status := ERROR; details := Some msg |} :: results,
             title :: posted)
        end in
      match checkDuplicateStatus item with
      | DUP_DUPLICATE => ({| paperTitle := title; z_status := DUPLICATE; details := None |} :: results, posted)
      | DUP_UNCERTAIN =>
          if negb useLocal then
            ({| paperTitle := title; z_status := UNCERTAIN;
                details := Some "Manual verify needed"%string |} :: results, posted)
          else post
      | DUP_NEW => post
      end
  end.

Definition uploadItems (zs : ZoteroSettings) (items : list ExportItem) : list ZoteroResult * list string :=
  if negb (useLocalZotero zs) && negb (truthy (service_libraryId zs)) then
    (map (fun i => {| paperTitle := p_title (x_paper i); z_status := ERROR;
                      details := Some "Zotero Library ID missing. Cannot upload."%string |}) items, [])
  else upload_loop (useLocalZotero zs) items.

End Upload.

(* ------------------------------------------------------------------ *)
(** ** The reading of a streamed response in [fetchWithCORSCheck] of the
    Ollama service *)

(** [s.split('\n')] *)
Fixpoint split_nl (s : string) : list string :=
  match s with
  | EmptyString => [EmptyString]
  | String c s' =>
      let parts := split_nl s' in
      if Ascii.eqb c (Ascii.ascii_of_nat 10) then EmptyString :: parts
      else match parts with
           | p :: ps => String c p :: ps
           | [] => [String c EmptyString]
           end
  end.

(** The concatenation of the decoded chunks. *)
Fixpoint concat_str (chunks : list string) : string :=
  match chunks with
  | [] => EmptyString
  | c :: cs => (c ++ concat_str cs)%string
  end.

Section Stream.

(** [JSON.parse(line).response]: [None] when the line does not parse or
    has no [response] field. *)
Variable parseResponse : string -> option string.

(** One complete line of the [for (const line of lines)] loop. *)
Definition process_line (fullResponseText line : string) : string :=
  if negb (truthy (trim line)) then fullResponseText
  else match parseResponse line with
       | Some r => if truthy r then (fullResponseText ++ r)%string else fullResponseText
       | None => fullResponseText
       end.

(** One [reader.read()] chunk: the buffer [accumulatedJson] and the text
    [fullResponseText] before and after. *)
Definition stream_chunk (st : string * string) (chunk : string) : string * string :=
  let '(accumulatedJson, fullResponseText) := st in
  let lines := split_nl (accumulatedJson ++ chunk) in
  (last lines EmptyString, fold_left process_line (removelast lines) fullResponseText).

(** The [response] of the object returned at the end of the stream. *)
Definition read_stream (chunks : list string) : string :=
  snd (fold_left stream_chunk chunks (EmptyString, EmptyString)).

End Stream.

(* ------------------------------------------------------------------ *)
(** ** Sample inputs *)

Definition sample_paper : Paper :=
  {| p_id := "pm-1"%string; p_title := "Curcumin in wound healing"%string;
     p_abstract := "A study of topical curcumin."%string; p_authors := ["Doe, J"%string];
     p_year := 2020; p_url := EmptyString; p_doi := None |}.

Definition sample_export_item (s : Status) : ExportItem :=
  {| x_paper := sample_paper;
     x_result := {| x_status := s; x_querySource := "curcumin"%string; x_ai := None |} |}.

Definition sample_numToString (_ : Q) : string := "0"%string.

(** Cloud mode, an API key, and a library id of one space. *)
Definition sample_blank_id_settings : ZoteroSettings :=
  {| useLocalZotero := false; zoteroApiKey := Some "key"%string;
     zoteroLibraryId := Some " "%string |}.

Definition sample_old_log : NetworkLog nat :=
  {| log_id := "req-1"%string; log_props := [("status"%string, 0%nat)] |}.

Definition sample_log : NetworkLog nat :=
  {| log_id := "req-1"%string; log_props := [("status"%string, 200%nat); ("duration"%string, 35%nat)] |}.

(* ------------------------------------------------------------------ *)
(** ** General lemmas *)

Lemma targetQualifiedCount_pos cfg : (1 <= targetQualifiedCount cfg)%nat.
Proof.
  unfold targetQualifiedCount.
  pose proof (Z.le_max_l 1 (Qceiling (inject_Z (Z.of_nat (speedupSampleCount cfg))
                                      * speedupQualifyRate cfg))).
  lia.
Qed.

Lemma ai_loop_events pid rs :
  Forall (fun e => e = EvAnalyze pid) (snd (ai_loop pid rs)).
Proof.
  induction rs as [|r rs IH]; simpl; [constructor|].
  destruct r; simpl; auto.
  destruct (ai_loop pid rs) as [a evs]; simpl in *; auto.
Qed.

Lemma process_paper_filtered cos cfg item qv svs st smart d :
  passes_prefilter (score_paper cos cfg item qv svs d) = false ->
  process_paper cos cfg item qv svs st smart d
  = (st, smart,
     mk_result d (score_paper cos cfg item qv svs d) st smart None true FILTERED_OUT,
     [EvPaper (mk_result d (score_paper cos cfg item qv svs d) st smart None true
                FILTERED_OUT)]).
Proof. intros H. unfold process_paper. cbv zeta. rewrite H. reflexivity. Qed.

(* ------------------------------------------------------------------ *)
(** ** Claims *)

(** C3. A document that fails the pre-filter (vector score below [vecMin]
    and composite score below [compMin]) gets FILTERED_OUT and leaves the
    cycle state, [processedCount] and [qualifiedCount] included, unchanged. *)
Theorem filtered_out_leaves_cycle cos cfg item qv svs st smart d :
  passes_prefilter (score_paper cos cfg item qv svs d) = false ->
  let '(st', _, r, _) := process_paper cos cfg item qv svs st smart d in
  status r = FILTERED_OUT
  /\ processedCount st' = processedCount st
  /\ qualifiedCount st' = qualifiedCount st
  /\ st' = st.
Proof.
  intros H. rewrite (process_paper_filtered _ _ _ _ _ _ _ _ H).
  repeat split.
Qed.

Lemma filtered_out_leaves_cycle_witness :
  passes_prefilter (score_paper unit_cos sample_cfg sample_item sample_query []
                      (unrelated_doc 1)) = false
  /\ let '(st', _, r, _) :=
       process_paper unit_cos sample_cfg sample_item sample_query []
         {| processedCount := 4; qualifiedCount := 2; failFastTriggered := false |}
         false (unrelated_doc 1) in
     status r = FILTERED_OUT
     /\ processedCount st' = 4%nat
     /\ qualifiedCount st' = 2%nat
     /\ st' = {| processedCount := 4; qualifiedCount := 2; failFastTriggered := false |}.
Proof.
  split; [reflexivity|].
  apply (filtered_out_leaves_cycle unit_cos sample_cfg sample_item sample_query []
           {| processedCount := 4; qualifiedCount := 2; failFastTriggered := false |}
           false (unrelated_doc 1)).
  reflexivity.
Defined.

Lemma process_paper_passed cos cfg item qv svs st smart d :
  passes_prefilter (score_paper cos cfg item qv svs d) = true ->
  process_paper cos cfg item qv svs st smart d =
  (let sc := score_paper cos cfg item qv svs d in
   let st1 := incr_processed st in
   if failFast cfg && (speedupSampleCount cfg <=? processedCount st1)%nat
      && (qualifiedCount st1 =? 0)%nat then
     let st2 := set_failFast st1 in
     let r := mk_result d sc st2 smart None true SKIPPED_FAIL_FAST in
     (st2, smart, r, [EvPaper r])
   else
     let isSpeedupEligible :=
       negb (processedCount st1 =? 1)%nat
       && (targetQualifiedCount cfg <=? qualifiedCount st1)%nat in
     let '(smart1, hdr) :=
       if isSpeedupEligible && negb smart
       then (true, [EvHarvestHeader (processedCount st1)])
       else (smart, []) in
     if isSpeedupEligible then
       let st2 := incr_qualified st1 in
       let r := mk_result d sc st2 smart1 None true QUALIFIED_SPEEDUP in
       (st2, smart1, r, hdr ++ [EvPaper r])
     else
       let '(ai, evs) := ai_loop (d_id d) (d_race d) in
       let qualifiedNow := match ai with Some a => a_qualified a | None => false end in
       let st2 := if qualifiedNow then incr_qualified st1 else st1 in
       let s := if qualifiedNow then QUALIFIED else AI_REJECTED in
       let r := mk_result d sc st2 smart1 ai false s in
       (st2, smart1, r, hdr ++ evs ++ [EvPaper r])).
Proof. intros H. unfold process_paper. cbv zeta. rewrite H. reflexivity. Qed.

(** C1 (as the code has it). For a document that passes the pre-filter,
    the fast path (QUALIFIED_SPEEDUP, no call of the judgment service) is
    taken exactly when the document is not the first pre-filtered one of
    the query and [qualifiedCount >= max(1, ceil(N * R))]; there is no
    yield test.  The fast path then increments [qualifiedCount]. *)
Theorem fast_path_rule cos cfg item qv svs st smart d :
  passes_prefilter (score_paper cos cfg item qv svs d) = true ->
  let '(st', _, r, evs) := process_paper cos cfg item qv svs st smart d in
  (status r = QUALIFIED_SPEEDUP <->
     processedCount st <> 0%nat /\ (targetQualifiedCount cfg <= qualifiedCount st)%nat)
  /\ (status r = QUALIFIED_SPEEDUP ->
        ~ In (EvAnalyze (d_id d)) evs /\ qualifiedCount st' = S (qualifiedCount st)).
Proof.
  intros H. rewrite (process_paper_passed _ _ _ _ _ _ _ _ H). cbv zeta.
  pose proof (targetQualifiedCount_pos cfg) as Ht.
  destruct (failFast cfg && (speedupSampleCount cfg <=? processedCount (incr_processed st))%nat
            && (qualifiedCount (incr_processed st) =? 0)%nat) eqn:Eff.
  - simpl. apply andb_true_iff in Eff as [_ Eq]. apply Nat.eqb_eq in Eq.
    simpl in Eq. split; [split; [discriminate | lia] | discriminate].
  - destruct (negb (processedCount (incr_processed st) =? 1)%nat
              && (targetQualifiedCount cfg <=? qualifiedCount (incr_processed st))%nat)
      eqn:Eel.
    + apply andb_true_iff in Eel as [E1 E2]. apply negb_true_iff, Nat.eqb_neq in E1.
      apply Nat.leb_le in E2. simpl in E1, E2.
      destruct (negb smart); simpl.
      * split; [split; [intros _; split; lia | reflexivity]|].
        intros _. split; [intros [Hc | [Hc | []]]; discriminate | reflexivity].
      * split; [split; [intros _; split; lia | reflexivity]|].
        intros _. split; [intros [Hc | []]; discriminate | reflexivity].
    + simpl. rewrite ?andb_false_r. simpl.
      destruct (ai_loop (d_id d) (d_race d)) as [ai evs] eqn:Eai.
      apply andb_false_iff in Eel. simpl in Eel.
      assert (Hs : forall b : bool, (if b then QUALIFIED else AI_REJECTED) <> QUALIFIED_SPEEDUP)
        by (intros []; discriminate).
      split; [split|].
      * intros Hc. exfalso. exact (Hs _ Hc).
      * intros [H1 H2]. exfalso. destruct Eel as [E | E].
        -- apply negb_false_iff, Nat.eqb_eq in E. lia.
        -- apply Nat.leb_gt in E. lia.
      * intros Hc. exfalso. exact (Hs _ Hc).
Qed.

Lemma fast_path_rule_witness :
  passes_prefilter (score_paper unit_cos sample_cfg sample_item sample_query []
                      (relevant_doc 6 [RSuccess rejecting_analysis])) = true
  /\ let '(st', _, r, evs) :=
       process_paper unit_cos sample_cfg sample_item sample_query []
         {| processedCount := 5; qualifiedCount := 5; failFastTriggered := false |}
         false (relevant_doc 6 [RSuccess rejecting_analysis]) in
     (status r = QUALIFIED_SPEEDUP <->
        processedCount {| processedCount := 5; qualifiedCount := 5; failFastTriggered := false |}
          <> 0%nat
        /\ (targetQualifiedCount sample_cfg
            <= qualifiedCount {| processedCount := 5; qualifiedCount := 5;
                                 failFastTriggered := false |})%nat)
     /\ (status r = QUALIFIED_SPEEDUP ->
           ~ In (EvAnalyze 6) evs /\ qualifiedCount st' = 6%nat).
Proof.
  split; [reflexivity|].
  apply (fast_path_rule unit_cos sample_cfg sample_item sample_query []
           {| processedCount := 5; qualifiedCount := 5; failFastTriggered := false |}
           false (relevant_doc 6 [RSuccess rejecting_analysis])).
  reflexivity.
Defined.

(** C1 as stated fails: with N = 10 and R = 0.5, the sixth pre-filtered
    document of a query with [qualifiedCount = 3] meets the spec's three
    conditions (yield 3/6 = 0.5) but is sent to the judgment service, since
    3 < max(1, ceil(10 * 0.5)) = 5. *)
Lemma fast_path_yield_counterexample :
  spec_fast_path_eligible 10 (1 # 2) 6 3 = true
  /\ let '(_, _, r, evs) :=
       process_paper unit_cos sample_cfg sample_item sample_query []
         {| processedCount := 5; qualifiedCount := 3; failFastTriggered := false |}
         false (relevant_doc 6 [RSuccess rejecting_analysis]) in
     status r = AI_REJECTED /\ In (EvAnalyze 6) evs.
Proof.
  split; [reflexivity|].
  vm_compute. split; [reflexivity | left; reflexivity].
Qed.

Lemma ai_loop_no_abort pid rs : no_abort (snd (ai_loop pid rs)) = true.
Proof.
  pose proof (ai_loop_events pid rs) as H. unfold no_abort.
  apply forallb_forall. intros e Hin. rewrite Forall_forall in H.
  rewrite (H e Hin). reflexivity.
Qed.

Lemma ai_loop_feed_statuses pid rs : feed_statuses (snd (ai_loop pid rs)) = [].
Proof.
  pose proof (ai_loop_events pid rs) as H.
  induction (snd (ai_loop pid rs)) as [|e evs IH]; [reflexivity|].
  inversion H; subst. simpl. apply IH. assumption.
Qed.

Lemma no_abort_app l1 l2 : no_abort (l1 ++ l2) = no_abort l1 && no_abort l2.
Proof. unfold no_abort. apply forallb_app. Qed.

Lemma after_first_abort_clean pre l :
  no_abort pre = true -> after_first_abort (pre ++ l) = after_first_abort l.
Proof.
  induction pre as [|e pre IH]; simpl; [reflexivity|].
  unfold no_abort in *. simpl. intros H. apply andb_true_iff in H as [He Hp].
  apply negb_true_iff in He. rewrite He. apply IH. exact Hp.
Qed.

Lemma after_first_abort_none l : no_abort l = true -> after_first_abort l = None.
Proof.
  intros H. rewrite <- (app_nil_r l). rewrite after_first_abort_clean by exact H.
  reflexivity.
Qed.

(** One pre-filtered or filtered document, from a state where fail-fast
    has not triggered: either it is the abort record, or nothing it emits
    is one and fail-fast stays off. *)
Lemma process_paper_abort_shape cos cfg item qv svs st smart d :
  failFastTriggered st = false ->
  let '(st', _, r, evs) := process_paper cos cfg item qv svs st smart d in
  (failFastTriggered st' = true /\ status r = SKIPPED_FAIL_FAST /\ evs = [EvPaper r])
  \/ (failFastTriggered st' = false /\ no_abort evs = true).
Proof.
  intros Hf.
  destruct (passes_prefilter (score_paper cos cfg item qv svs d)) eqn:Hp.
  - rewrite (process_paper_passed _ _ _ _ _ _ _ _ Hp). cbv zeta.
    destruct (_ && _ && _) eqn:Eff; [simpl; left; auto|].
    destruct (negb _ && _) eqn:Eel.
    + destruct (negb smart); simpl; right; rewrite Hf; auto.
    + simpl. rewrite ?andb_false_r. simpl.
      pose proof (ai_loop_no_abort (d_id d) (d_race d)) as Hn.
      destruct (ai_loop (d_id d) (d_race d)) as [ai evs]. simpl in Hn.
      right. split.
      * destruct (match ai with Some a => a_qualified a | None => false end); exact Hf.
      * rewrite no_abort_app, Hn. simpl.
        destruct (match ai with Some a => a_qualified a | None => false end); reflexivity.
  - rewrite (process_paper_filtered _ _ _ _ _ _ _ _ Hp). right. auto.
Qed.

Definition abort_shape (st' : CycleRef) (evs : list Event) (stop : bool) : Prop :=
  (stop = false /\ failFastTriggered st' = false /\ no_abort evs = true)
  \/ (stop = true /\ failFastTriggered st' = true
      /\ exists pre r, evs = pre ++ [EvPaper r] /\ status r = SKIPPED_FAIL_FAST
                       /\ no_abort pre = true).

Lemma abort_shape_prepend st' pre evs stop :
  no_abort pre = true -> abort_shape st' evs stop -> abort_shape st' (pre ++ evs) stop.
Proof.
  intros Hp [[H1 [H2 H3]] | [H1 [H2 [pre' [r [H3 [H4 H5]]]]]]].
  - left. rewrite no_abort_app, Hp, H3. auto.
  - right. split; [exact H1|]. split; [exact H2|].
    exists (pre ++ pre'), r. rewrite H3, app_assoc. rewrite no_abort_app, Hp, H5. auto.
Qed.

Lemma processPaperBatch_abort_shape cos cfg item qv svs ds :
  forall st smart, failFastTriggered st = false ->
  let '(st', _, evs, stop) := processPaperBatch cos cfg item qv svs st smart ds in
  abort_shape st' evs stop.
Proof.
  induction ds as [|d ds IH]; intros st smart Hf; simpl.
  - left. auto.
  - rewrite Hf.
    pose proof (process_paper_abort_shape cos cfg item qv svs st smart d Hf) as Hs.
    destruct (process_paper cos cfg item qv svs st smart d) as [[[st1 sm1] r] evs].
    destruct Hs as [[H1 [H2 H3]] | [H1 H2]]; rewrite H1.
    + right. split; [reflexivity|]. split; [exact H1|].
      exists [], r. subst evs. auto.
    + specialize (IH st1 sm1 H1).
      destruct (processPaperBatch cos cfg item qv svs st1 sm1 ds) as [[[st2 sm2] evs2] stop].
      apply abort_shape_prepend; assumption.
Qed.

Lemma batch_loop_abort_shape cos cfg item qv svs fetchPage fuel :
  forall currentStart LIMIT st smart, failFastTriggered st = false ->
  let '(st', _, evs, ffs) :=
    batch_loop cos cfg item qv svs fetchPage fuel currentStart LIMIT st smart in
  abort_shape st' evs ffs.
Proof.
  induction fuel as [|fuel IH]; intros currentStart LIMIT st smart Hf; cbn [batch_loop].
  - left. auto.
  - remember (Nat.min BATCH_SIZE (LIMIT - currentStart)) as size eqn:Hsize.
    destruct (currentStart <? LIMIT)%nat; [|left; auto].
    rewrite Hf.
    destruct (fetchPage currentStart size) as [papers|].
    + destruct papers as [|d ds].
      * left. auto.
      * pose proof (processPaperBatch_abort_shape cos cfg item qv svs (d :: ds) st smart Hf)
          as Hb.
        destruct (processPaperBatch cos cfg item qv svs st smart (d :: ds))
          as [[[st1 sm1] evs1] stop].
        destruct Hb as [[H1 [H2 H3]] | [H1 [H2 [pre [r [H3 [H4 H5]]]]]]]; subst stop.
        -- specialize (IH (currentStart + BATCH_SIZE)%nat LIMIT st1 sm1 H2).
           destruct (batch_loop cos cfg item qv svs fetchPage fuel
                       (currentStart + BATCH_SIZE) LIMIT st1 sm1) as [[[st2 sm2] evs2] ffs].
           apply (abort_shape_prepend _ (EvFetch currentStart _ :: evs1)); [|exact IH].
           simpl. exact H3.
        -- right. split; [reflexivity|]. split; [exact H2|].
           exists (EvFetch currentStart size :: pre), r.
           subst evs1. auto.
    + specialize (IH (currentStart + BATCH_SIZE)%nat LIMIT st smart Hf).
      destruct (batch_loop cos cfg item qv svs fetchPage fuel
                  (currentStart + BATCH_SIZE) LIMIT st smart) as [[[st2 sm2] evs2] ffs].
      apply (abort_shape_prepend _ [EvFetch currentStart _; EvFetchFailed currentStart]);
        [reflexivity | exact IH].
Qed.

(** After the first fail-fast record of a query run, the run emits nothing
    but its closing block: no page fetch, no judgment call, no feed entry. *)
Lemma run_query_after_abort cos cfg item qv svs fetchPage :
  after_first_abort (snd (run_query cos cfg item qv svs fetchPage)) = None
  \/ after_first_abort (snd (run_query cos cfg item qv svs fetchPage))
     = Some [EvComplete true].
Proof.
  unfold run_query.
  pose proof (batch_loop_abort_shape cos cfg item qv svs fetchPage
                (S (STOP_LIMIT item)) (startRec item) (STOP_LIMIT item)
                cycle_reset false eq_refl) as Hb.
  destruct (batch_loop cos cfg item qv svs fetchPage (S (STOP_LIMIT item)) (startRec item)
              (STOP_LIMIT item) cycle_reset false) as [[[st sm] evs] ffs].
  simpl.
  destruct Hb as [[H1 [H2 H3]] | [H1 [H2 [pre [r [H3 [H4 H5]]]]]]]; subst.
  - left. apply after_first_abort_none. rewrite no_abort_app, H3. reflexivity.
  - right. rewrite <- app_assoc, after_first_abort_clean by exact H5.
    simpl. rewrite H4. reflexivity.
Qed.

(** A run of pre-filtered documents none of which qualifies, from a state
    with no qualification yet: judged and rejected until [processedCount]
    reaches [N], then aborted. *)
Lemma zero_yield_batch cos cfg item qv svs :
  failFast cfg = true ->
  forall ds st smart,
  failFastTriggered st = false -> qualifiedCount st = 0%nat ->
  (processedCount st < speedupSampleCount cfg)%nat ->
  (speedupSampleCount cfg - processedCount st <= List.length ds)%nat ->
  Forall (fun d => passes_prefilter (score_paper cos cfg item qv svs d) = true
                   /\ judgment_rejects d = true) ds ->
  let '(_, _, evs, stop) := processPaperBatch cos cfg item qv svs st smart ds in
  feed_statuses evs
  = repeat AI_REJECTED (speedupSampleCount cfg - S (processedCount st))
    ++ [SKIPPED_FAIL_FAST]
  /\ stop = true.
Proof.
  intros Hff ds. induction ds as [|d ds IH]; intros st smart Hf Hq Hlt Hlen Hall.
  - simpl in Hlen. lia.
  - inversion Hall as [|? ? [Hp Hr] Hall']; subst.
    cbn [processPaperBatch]. rewrite Hf.
    rewrite (process_paper_passed _ _ _ _ _ _ _ _ Hp). cbv zeta.
    cbn [processedCount qualifiedCount incr_processed]. rewrite Hff, Hq. simpl andb.
    destruct (speedupSampleCount cfg <=? S (processedCount st))%nat eqn:Hle.
    + apply Nat.leb_le in Hle.
      replace (speedupSampleCount cfg - S (processedCount st))%nat with 0%nat by lia.
      simpl. auto.
    + apply Nat.leb_gt in Hle.
      pose proof (targetQualifiedCount_pos cfg) as Ht.
      replace (targetQualifiedCount cfg <=? 0)%nat with false
        by (symmetry; apply Nat.leb_gt; lia).
      rewrite andb_false_r. simpl.
      unfold judgment_rejects in Hr.
      pose proof (ai_loop_feed_statuses (d_id d) (d_race d)) as Hfs.
      destruct (ai_loop (d_id d) (d_race d)) as [ai evs] eqn:Eai. simpl in Hr, Hfs.
      assert (Hn : match ai with Some a => a_qualified a | None => false end = false)
        by (destruct ai as [a|]; [apply negb_true_iff; exact Hr | reflexivity]).
      rewrite Hn. simpl.
      specialize (IH (incr_processed st) smart Hf Hq ltac:(simpl; lia)
                     ltac:(simpl in Hlen |- *; lia) Hall').
      destruct (processPaperBatch cos cfg item qv svs (incr_processed st) smart ds)
        as [[[st2 sm2] evs2] stop] eqn:Eb.
      rewrite Hf. destruct IH as [IH1 IH2]. split; [|exact IH2].
      unfold feed_statuses in *. rewrite !flat_map_app, Hfs. simpl.
      cbn [incr_processed processedCount] in IH1. rewrite IH1.
      replace (speedupSampleCount cfg - S (processedCount st))%nat
        with (S (speedupSampleCount cfg - S (S (processedCount st))))%nat by lia.
      reflexivity.
Qed.

(** C2. With fail-fast enabled: (1) a pre-filtered document gets
    SKIPPED_FAIL_FAST, and sets [failFastTriggered], exactly when, counting
    it, [processedCount >= N] while [qualifiedCount = 0]; (2) after the
    first such record a query run fetches no further page, calls the
    judgment service for no further document and appends no further
    document to the feed, only its closing block; (3) with N = 10, ten
    pre-filtered documents of a fresh query none of which qualifies are
    judged and rejected nine times, and the tenth is the abort, which stops
    the batch. *)
Theorem fail_fast_abort cos cfg item qv svs :
  failFast cfg = true ->
  (forall st smart d,
     failFastTriggered st = false ->
     passes_prefilter (score_paper cos cfg item qv svs d) = true ->
     let '(st', _, r, _) := process_paper cos cfg item qv svs st smart d in
     (status r = SKIPPED_FAIL_FAST
      <-> (speedupSampleCount cfg <= S (processedCount st))%nat
          /\ qualifiedCount st = 0%nat)
     /\ failFastTriggered st'
        = ((speedupSampleCount cfg <=? S (processedCount st))%nat
           && (qualifiedCount st =? 0)%nat))
  /\ (forall fetchPage,
        after_first_abort (snd (run_query cos cfg item qv svs fetchPage)) = None
        \/ after_first_abort (snd (run_query cos cfg item qv svs fetchPage))
           = Some [EvComplete true])
  /\ (speedupSampleCount cfg = 10%nat ->
      forall ds, List.length ds = 10%nat ->
      Forall (fun d => passes_prefilter (score_paper cos cfg item qv svs d) = true
                       /\ judgment_rejects d = true) ds ->
      let '(_, _, evs, stop) := processPaperBatch cos cfg item qv svs cycle_reset false ds in
      feed_statuses evs = repeat AI_REJECTED 9 ++ [SKIPPED_FAIL_FAST] /\ stop = true).
Proof.
  intros Hff. split; [|split].
  - intros st smart d Hf Hp.
    rewrite (process_paper_passed _ _ _ _ _ _ _ _ Hp). cbv zeta.
    cbn [processedCount qualifiedCount incr_processed]. rewrite Hff. simpl andb.
    destruct ((speedupSampleCount cfg <=? S (processedCount st))%nat
              && (qualifiedCount st =? 0)%nat) eqn:Ec.
    + apply andb_true_iff in Ec as [E1 E2].
      apply Nat.leb_le in E1. apply Nat.eqb_eq in E2. simpl. tauto.
    + assert (Hs : ~ ((speedupSampleCount cfg <= S (processedCount st))%nat
                     /\ qualifiedCount st = 0%nat)).
      { intros [E1 E2]. apply Nat.leb_le in E1. apply Nat.eqb_eq in E2.
        rewrite E1, E2 in Ec. discriminate. }
      destruct (negb _ && _).
      * destruct (negb smart); simpl; rewrite Hf;
          (split; [split; [discriminate | intros H; contradiction] | reflexivity]).
      * simpl. rewrite ?andb_false_r. simpl.
        destruct (ai_loop (d_id d) (d_race d)) as [ai evs].
        destruct (match ai with Some a => a_qualified a | None => false end); simpl;
          (split; [split; [discriminate | intros H; contradiction] | exact Hf]).
  - intros fetchPage. apply run_query_after_abort.
  - intros HN ds Hlen Hall.
    pose proof (zero_yield_batch cos cfg item qv svs Hff ds cycle_reset false
                  eq_refl eq_refl ltac:(simpl; lia) ltac:(simpl; lia) Hall) as H.
    rewrite HN in H. exact H.
Qed.

Lemma fail_fast_abort_witness :
  failFast sample_cfg = true
  /\ (forall st smart d,
       failFastTriggered st = false ->
       passes_prefilter (score_paper unit_cos sample_cfg sample_item sample_query [] d)
       = true ->
       let '(st', _, r, _) :=
         process_paper unit_cos sample_cfg sample_item sample_query [] st smart d in
       (status r = SKIPPED_FAIL_FAST
        <-> (speedupSampleCount sample_cfg <= S (processedCount st))%nat
            /\ qualifiedCount st = 0%nat)
       /\ failFastTriggered st'
          = ((speedupSampleCount sample_cfg <=? S (processedCount st))%nat
             && (qualifiedCount st =? 0)%nat))
  /\ (forall fetchPage,
        after_first_abort
          (snd (run_query unit_cos sample_cfg sample_item sample_query [] fetchPage)) = None
        \/ after_first_abort
             (snd (run_query unit_cos sample_cfg sample_item sample_query [] fetchPage))
           = Some [EvComplete true])
  /\ (speedupSampleCount sample_cfg = 10%nat ->
      forall ds, List.length ds = 10%nat ->
      Forall (fun d =>
                passes_prefilter (score_paper unit_cos sample_cfg sample_item sample_query [] d)
                = true /\ judgment_rejects d = true) ds ->
      let '(_, _, evs, stop) :=
        processPaperBatch unit_cos sample_cfg sample_item sample_query [] cycle_reset false ds in
      feed_statuses evs = repeat AI_REJECTED 9 ++ [SKIPPED_FAIL_FAST] /\ stop = true).
Proof.
  split; [reflexivity|].
  apply (fail_fast_abort unit_cos sample_cfg sample_item sample_query []).
  reflexivity.
Defined.

Definition locked cfg (st : CycleRef) : Prop :=
  failFastTriggered st = false /\ (1 <= processedCount st)%nat
  /\ (targetQualifiedCount cfg <= qualifiedCount st)%nat.

Lemma locked_step cos cfg item qv svs st smart d :
  locked cfg st ->
  let '(st', _, _, evs) := process_paper cos cfg item qv svs st smart d in
  locked cfg st' /\ Forall fast_path_event evs
  /\ qualifiedCount st' = (qualifiedCount st
                           + if passes_prefilter (score_paper cos cfg item qv svs d)
                             then 1 else 0)%nat.
Proof.
  intros (Hf & Hp1 & Ht).
  pose proof (targetQualifiedCount_pos cfg) as Ht1.
  destruct (passes_prefilter (score_paper cos cfg item qv svs d)) eqn:Hp.
  - rewrite (process_paper_passed _ _ _ _ _ _ _ _ Hp). cbv zeta.
    cbn [processedCount qualifiedCount incr_processed].
    replace (qualifiedCount st =? 0)%nat with false by (symmetry; apply Nat.eqb_neq; lia).
    rewrite andb_false_r.
    replace (negb (S (processedCount st) =? 1)%nat
             && (targetQualifiedCount cfg <=? qualifiedCount st)%nat) with true
      by (symmetry; apply andb_true_iff; split;
          [apply negb_true_iff, Nat.eqb_neq; lia | apply Nat.leb_le; lia]).
    assert (Hl : locked cfg (incr_qualified (incr_processed st)))
      by (unfold locked; simpl; repeat split; [exact Hf | lia | lia]).
    assert (He : forall smart1, fast_path_event
              (EvPaper (mk_result d (score_paper cos cfg item qv svs d)
                          (incr_qualified (incr_processed st)) smart1 None true
                          QUALIFIED_SPEEDUP)))
      by (intros smart1 _; reflexivity).
    destruct (negb smart); simpl.
    + split; [exact Hl|]. split; [|lia]. repeat constructor; try apply He.
    + split; [exact Hl|]. split; [|lia]. repeat constructor; try apply He.
  - rewrite (process_paper_filtered _ _ _ _ _ _ _ _ Hp).
    split; [repeat split; assumption|]. split; [|lia].
    constructor; [|constructor]. simpl.
    unfold passes_prefilter in Hp. intros H. rewrite H in Hp. discriminate.
Qed.

Lemma locked_batch cos cfg item qv svs ds :
  forall st smart, locked cfg st ->
  let '(st', _, evs, stop) := processPaperBatch cos cfg item qv svs st smart ds in
  locked cfg st' /\ Forall fast_path_event evs
  /\ qualifiedCount st' = (qualifiedCount st + count_prefiltered cos cfg item qv svs ds)%nat
  /\ stop = false.
Proof.
  induction ds as [|d ds IH]; intros st smart Hl.
  - simpl. unfold count_prefiltered. simpl. auto.
  - cbn [processPaperBatch]. destruct Hl as [Hf Hrest] eqn:Hl'. rewrite Hf.
    pose proof (locked_step cos cfg item qv svs st smart d Hl) as Hs.
    destruct (process_paper cos cfg item qv svs st smart d) as [[[st1 sm1] r] evs].
    destruct Hs as ((Hf1 & Hl1) & Hev & Hq).
    rewrite Hf1.
    specialize (IH st1 sm1 (conj Hf1 Hl1)).
    destruct (processPaperBatch cos cfg item qv svs st1 sm1 ds) as [[[st2 sm2] evs2] stop].
    destruct IH as (Hl2 & Hev2 & Hq2 & Hstop).
    split; [exact Hl2|]. split; [apply Forall_app; split; assumption|].
    split; [|exact Hstop].
    rewrite Hq2, Hq. unfold count_prefiltered. simpl.
    destruct (passes_prefilter (score_paper cos cfg item qv svs d)); simpl; lia.
Qed.

Lemma locked_batch_loop cos cfg item qv svs fetchPage fuel :
  forall currentStart LIMIT st smart, locked cfg st ->
  let '(_, _, evs, ffs) :=
    batch_loop cos cfg item qv svs fetchPage fuel currentStart LIMIT st smart in
  Forall fast_path_event evs /\ ffs = false.
Proof.
  induction fuel as [|fuel IH]; intros currentStart LIMIT st smart Hl; cbn [batch_loop].
  - auto.
  - remember (Nat.min BATCH_SIZE (LIMIT - currentStart)) as size eqn:Hsize.
    destruct (currentStart <? LIMIT)%nat; [|auto].
    destruct Hl as [Hf Hrest] eqn:Hl'. rewrite Hf.
    destruct (fetchPage currentStart size) as [papers|].
    + destruct papers as [|d ds].
      * split; [repeat constructor | reflexivity].
      * pose proof (locked_batch cos cfg item qv svs (d :: ds) st smart Hl) as Hb.
        destruct (processPaperBatch cos cfg item qv svs st smart (d :: ds))
          as [[[st1 sm1] evs1] stop].
        destruct Hb as (Hl1 & Hev1 & _ & Hstop). subst stop.
        specialize (IH (currentStart + BATCH_SIZE)%nat LIMIT st1 sm1 Hl1).
        destruct (batch_loop cos cfg item qv svs fetchPage fuel
                    (currentStart + BATCH_SIZE) LIMIT st1 sm1) as [[[st2 sm2] evs2] ffs].
        destruct IH as [Hev2 Hffs]. split; [|exact Hffs].
        constructor; [exact I|]. apply Forall_app. split; assumption.
    + specialize (IH (currentStart + BATCH_SIZE)%nat LIMIT st smart Hl).
      destruct (batch_loop cos cfg item qv svs fetchPage fuel
                  (currentStart + BATCH_SIZE) LIMIT st smart) as [[[st2 sm2] evs2] ffs].
      destruct IH as [Hev2 Hffs]. split; [|exact Hffs].
      repeat constructor; assumption.
Qed.

(** C4. Once a pre-filtered document of a query has taken the fast path
    (QUALIFIED_SPEEDUP, processed while fail-fast had not triggered), every
    later document of the query that passes the pre-filter, on the rest of
    the page and on every later page, is QUALIFIED_SPEEDUP without a call of
    the judgment service, and [qualifiedCount] grows by one for each. *)
Theorem fast_path_locked cos cfg item qv svs st smart d :
  failFastTriggered st = false ->
  let '(st1, sm1, r, _) := process_paper cos cfg item qv svs st smart d in
  status r = QUALIFIED_SPEEDUP ->
  (forall ds,
     let '(st', _, evs, stop) := processPaperBatch cos cfg item qv svs st1 sm1 ds in
     Forall fast_path_event evs
     /\ qualifiedCount st'
        = (qualifiedCount st1 + count_prefiltered cos cfg item qv svs ds)%nat
     /\ stop = false)
  /\ (forall fetchPage fuel currentStart LIMIT,
        let '(_, _, evs, ffs) :=
          batch_loop cos cfg item qv svs fetchPage fuel currentStart LIMIT st1 sm1 in
        Forall fast_path_event evs /\ ffs = false).
Proof.
  intros Hf.
  assert (Hlock : let '(st1, _, r, _) := process_paper cos cfg item qv svs st smart d in
                  status r = QUALIFIED_SPEEDUP -> locked cfg st1).
  { destruct (passes_prefilter (score_paper cos cfg item qv svs d)) eqn:Hp.
    - rewrite (process_paper_passed _ _ _ _ _ _ _ _ Hp). cbv zeta.
      pose proof (targetQualifiedCount_pos cfg) as Ht.
      cbn [processedCount qualifiedCount incr_processed].
      destruct (_ && _ && _); [simpl; discriminate|].
      destruct (negb (S (processedCount st) =? 1)%nat
                && (targetQualifiedCount cfg <=? qualifiedCount st)%nat) eqn:Eel.
      + apply andb_true_iff in Eel as [E1 E2].
        apply negb_true_iff, Nat.eqb_neq in E1. apply Nat.leb_le in E2.
        destruct (negb smart); simpl; intros _; unfold locked; simpl;
          (split; [exact Hf | lia]).
      + simpl. rewrite ?andb_false_r. simpl.
        destruct (ai_loop (d_id d) (d_race d)) as [ai evs].
        destruct (match ai with Some a => a_qualified a | None => false end);
          simpl; discriminate.
    - rewrite (process_paper_filtered _ _ _ _ _ _ _ _ Hp). simpl. discriminate. }
  destruct (process_paper cos cfg item qv svs st smart d) as [[[st1 sm1] r] evs].
  intros Hs. specialize (Hlock Hs). split.
  - intros ds.
    pose proof (locked_batch cos cfg item qv svs ds st1 sm1 Hlock) as Hb.
    destruct (processPaperBatch cos cfg item qv svs st1 sm1 ds) as [[[st' sm'] evs'] stop].
    destruct Hb as (_ & H1 & H2 & H3). auto.
  - intros fetchPage fuel currentStart LIMIT.
    exact (locked_batch_loop cos cfg item qv svs fetchPage fuel currentStart LIMIT
             st1 sm1 Hlock).
Qed.

Lemma fast_path_locked_witness :
  failFastTriggered {| processedCount := 5; qualifiedCount := 5; failFastTriggered := false |}
  = false
  /\ let '(st1, sm1, r, _) :=
       process_paper unit_cos sample_cfg sample_item sample_query []
         {| processedCount := 5; qualifiedCount := 5; failFastTriggered := false |}
         false (relevant_doc 6 []) in
     status r = QUALIFIED_SPEEDUP
     /\ ((forall ds,
           let '(st', _, evs, stop) :=
             processPaperBatch unit_cos sample_cfg sample_item sample_query [] st1 sm1 ds in
           Forall fast_path_event evs
           /\ qualifiedCount st'
              = (qualifiedCount st1
                 + count_prefiltered unit_cos sample_cfg sample_item sample_query [] ds)%nat
           /\ stop = false)
         /\ (forall fetchPage fuel currentStart LIMIT,
               let '(_, _, evs, ffs) :=
                 batch_loop unit_cos sample_cfg sample_item sample_query [] fetchPage fuel
                   currentStart LIMIT st1 sm1 in
               Forall fast_path_event evs /\ ffs = false)).
Proof.
  split; [reflexivity|].
  pose proof (fast_path_locked unit_cos sample_cfg sample_item sample_query []
                {| processedCount := 5; qualifiedCount := 5; failFastTriggered := false |}
                false (relevant_doc 6 []) eq_refl) as H.
  destruct (process_paper unit_cos sample_cfg sample_item sample_query []
              {| processedCount := 5; qualifiedCount := 5; failFastTriggered := false |}
              false (relevant_doc 6 [])) as [[[st1 sm1] r] evs] eqn:E.
  assert (Hs : status r = QUALIFIED_SPEEDUP).
  { vm_compute in E. inversion E. reflexivity. }
  split; [exact Hs | exact (H Hs)].
Defined.

Lemma service_failure prov summaryOf runInference :
  failed_inference (runInference false) ->
  (exists a, fst (analyzePaper prov summaryOf runInference) = SvcOk a
             /\ a_qualified a = false /\ diagnostic_summary (a_summary a))
  \/ fst (analyzePaper prov summaryOf runInference) = SvcThrow.
Proof.
  intros H. unfold diagnostic_summary.
  destruct prov; simpl; unfold gemini_analyzePaper, ollama_analyzePaper;
    destruct (runInference false) as [j|msg|msg|]; simpl in H; try contradiction;
    first
      [ right; reflexivity
      | left; eexists; split; [reflexivity|]; split; [reflexivity|];
        cbn [a_summary failed_analysis];
        first [ tauto | right; right; right; right; eexists; reflexivity ] ].
Qed.

Lemma ai_loop_failure pid rs :
  judgment_failure rs ->
  exists a, fst (ai_loop pid rs) = Some a /\ a_qualified a = false
            /\ diagnostic_summary (a_summary a).
Proof.
  intros (k & r & rest & -> & Hr). unfold diagnostic_summary.
  induction k as [|k IH]; simpl.
  - destruct Hr as [-> | [-> | (prov & summaryOf & runInference & Hfail & ->)]].
    + eexists. split; [reflexivity|]. simpl. intuition.
    + eexists. split; [reflexivity|]. simpl. intuition.
    + destruct (service_failure prov summaryOf runInference Hfail)
        as [(a & Ha & Hq & Hd) | Ht]; rewrite ?Ha, ?Ht; simpl.
      * eexists. split; [reflexivity|]. split; [exact Hq|exact Hd].
      * eexists. split; [reflexivity|]. simpl. intuition.
  - destruct (ai_loop pid (repeat RRetry k ++ r :: rest)) as [ai evs]. exact IH.
Qed.

(** C7. When the judgment of a pre-filtered document fails (error of the
    call, timeout, or a service whose inference threw or returned a
    malformed response), the document gets AI_REJECTED with a diagnostic
    summary, its record is appended to the feed, fail-fast is not set and
    [qualifiedCount] does not change, and the batch goes on with the next
    document. *)
Theorem judgment_failure_rejected cos cfg item qv svs st smart d :
  failFastTriggered st = false ->
  passes_prefilter (score_paper cos cfg item qv svs d) = true ->
  failFast cfg && (speedupSampleCount cfg <=? S (processedCount st))%nat
    && (qualifiedCount st =? 0)%nat = false ->
  (processedCount st = 0%nat
   \/ (qualifiedCount st < targetQualifiedCount cfg)%nat) ->
  judgment_failure (d_race d) ->
  let '(st', smart', r, evs) := process_paper cos cfg item qv svs st smart d in
  status r = AI_REJECTED
  /\ (exists a, aiAnalysis r = Some a /\ a_qualified a = false
                /\ diagnostic_summary (a_summary a))
  /\ In (EvPaper r) evs
  /\ failFastTriggered st' = false
  /\ qualifiedCount st' = qualifiedCount st
  /\ (forall ds,
        processPaperBatch cos cfg item qv svs st smart (d :: ds)
        = let '(st2, sm2, evs2, stop) := processPaperBatch cos cfg item qv svs st' smart' ds in
          (st2, sm2, evs ++ evs2, stop)).
Proof.
  intros Hf Hp Hff Hel Hj.
  assert (Hfacts :
    let '(st', _, r, evs) := process_paper cos cfg item qv svs st smart d in
    status r = AI_REJECTED
    /\ (exists a, aiAnalysis r = Some a /\ a_qualified a = false
                  /\ diagnostic_summary (a_summary a))
    /\ In (EvPaper r) evs
    /\ failFastTriggered st' = false
    /\ qualifiedCount st' = qualifiedCount st).
  { rewrite (process_paper_passed _ _ _ _ _ _ _ _ Hp). cbv zeta.
    cbn [processedCount qualifiedCount incr_processed].
    rewrite Hff.
    replace (negb (S (processedCount st) =? 1)%nat
             && (targetQualifiedCount cfg <=? qualifiedCount st)%nat) with false
      by (symmetry; apply andb_false_iff; destruct Hel as [E | E];
          [left; rewrite E; reflexivity | right; apply Nat.leb_gt; exact E]).
    simpl.
    destruct (ai_loop_failure (d_id d) (d_race d) Hj) as (a & Ha & Hq & Hd).
    destruct (ai_loop (d_id d) (d_race d)) as [ai evs]. simpl in Ha. subst ai.
    rewrite Hq. simpl.
    split; [reflexivity|]. split; [exists a; auto|].
    split; [apply in_or_app; right; left; reflexivity|].
    split; [exact Hf | reflexivity]. }
  destruct (process_paper cos cfg item qv svs st smart d) as [[[st' smart'] r] evs] eqn:E.
  destruct Hfacts as (H1 & H2 & H3 & H4 & H5).
  split; [exact H1|]. split; [exact H2|]. split; [exact H3|].
  split; [exact H4|]. split; [exact H5|].
  intros ds. cbn [processPaperBatch]. rewrite Hf, E, H4. reflexivity.
Qed.

Lemma judgment_failure_rejected_witness :
  failFastTriggered cycle_reset = false
  /\ passes_prefilter (score_paper unit_cos sample_cfg sample_item sample_query []
                        (relevant_doc 1 [RRetry; RTimeout])) = true
  /\ failFast sample_cfg && (speedupSampleCount sample_cfg <=? S (processedCount cycle_reset))%nat
       && (qualifiedCount cycle_reset =? 0)%nat = false
  /\ (processedCount cycle_reset = 0%nat
      \/ (qualifiedCount cycle_reset < targetQualifiedCount sample_cfg)%nat)
  /\ judgment_failure (d_race (relevant_doc 1 [RRetry; RTimeout]))
  /\ let '(st', smart', r, evs) :=
       process_paper unit_cos sample_cfg sample_item sample_query [] cycle_reset false
         (relevant_doc 1 [RRetry; RTimeout]) in
     status r = AI_REJECTED
     /\ (exists a, aiAnalysis r = Some a /\ a_qualified a = false
                   /\ diagnostic_summary (a_summary a))
     /\ In (EvPaper r) evs
     /\ failFastTriggered st' = false
     /\ qualifiedCount st' = qualifiedCount cycle_reset
     /\ (forall ds,
           processPaperBatch unit_cos sample_cfg sample_item sample_query [] cycle_reset false
             (relevant_doc 1 [RRetry; RTimeout] :: ds)
           = let '(st2, sm2, evs2, stop) :=
               processPaperBatch unit_cos sample_cfg sample_item sample_query [] st' smart' ds in
             (st2, sm2, evs ++ evs2, stop)).
Proof.
  assert (Hj : judgment_failure (d_race (relevant_doc 1 [RRetry; RTimeout])))
    by (exists 1%nat, RTimeout, []; split; [reflexivity | right; left; reflexivity]).
  split; [reflexivity|]. split; [reflexivity|]. split; [reflexivity|].
  split; [left; reflexivity|]. split; [exact Hj|].
  apply (judgment_failure_rejected unit_cos sample_cfg sample_item sample_query []
           cycle_reset false (relevant_doc 1 [RRetry; RTimeout]));
    [reflexivity | reflexivity | reflexivity | left; reflexivity | exact Hj].
Defined.

(** What a resolved [analyzePaper] returns: the object built from the JSON
    it kept (the first inference, or for Ollama the corrective one), or the
    error object of a failed inference. *)
Lemma analyzePaper_result prov summaryOf runInference a :
  fst (analyzePaper prov summaryOf runInference) = SvcOk a ->
  (exists j, (runInference false = IOk j
              \/ (prov = Ollama /\ runInference true = IOk j))
             /\ a = analysis_of_json (summaryOf j) j)
  \/ (failed_inference (runInference false)
      /\ a_qualified a = false /\ a_score a = 0 /\ a_probability a = 0).
Proof.
  destruct prov; simpl; unfold gemini_analyzePaper, ollama_analyzePaper;
    destruct (runInference false) as [j0|msg|msg|] eqn:E0;
    [ | | | | destruct (probability_is_zero j0);
              [ destruct (runInference true) as [j1| | |] eqn:E1;
                [ destruct (probability_positive j1) | | | ] | ] | | | ];
    simpl; intros H; try discriminate; injection H as <-;
    first [ solve [ left; exists j1; split;
                    [ right; split; [ reflexivity | first [ assumption | reflexivity ] ]
                    | reflexivity ] ]
          | solve [ left; exists j0; split;
                    [ left; first [ assumption | reflexivity ] | reflexivity ] ]
          | solve [ right; simpl; auto ] ].
Qed.

Lemma analysis_of_json_qualified summary j :
  a_qualified (analysis_of_json summary j) = true
  <-> j_qualified j = true \/ 6 <= score_or0 j.
Proof.
  unfold analysis_of_json. simpl. rewrite orb_true_iff, Qle_bool_iff. tauto.
Qed.

Lemma ai_loop_qualified pid rs a :
  fst (ai_loop pid rs) = Some a -> a_qualified a = true ->
  exists k rest, rs = repeat RRetry k ++ RSuccess a :: rest.
Proof.
  induction rs as [|r rs IH]; simpl; [discriminate|].
  destruct r as [a'| | | |].
  - intros H _. injection H as ->. exists 0%nat, rs. reflexivity.
  - intros H Hq. injection H as <-. discriminate Hq.
  - intros H Hq. injection H as <-. discriminate Hq.
  - intros H Hq. injection H as <-. discriminate Hq.
  - destruct (ai_loop pid rs) as [ai evs] eqn:E. simpl. intros H Hq.
    destruct (IH H Hq) as (k & rest & ->). exists (S k), rest. reflexivity.
Qed.

Lemma ai_loop_retries_success pid k a rest :
  fst (ai_loop pid (repeat RRetry k ++ RSuccess a :: rest)) = Some a.
Proof.
  induction k as [|k IH]; simpl; [reflexivity|].
  destruct (ai_loop pid (repeat RRetry k ++ RSuccess a :: rest)). exact IH.
Qed.

Lemma Forall_retries_success {A} (P : A -> Prop) l x rest :
  Forall P (l ++ x :: rest) -> P x.
Proof. intros H. apply Forall_app in H as [_ H]. inversion H. assumption. Qed.

(** C5 (as the code has it). For a pre-filtered document sent to the
    judgment branch, whatever the operator's RETRY presses, timeouts,
    SKIP or abort, the outcome is QUALIFIED or AI_REJECTED; it is
    QUALIFIED exactly when the loop ends on a call of the service (after
    any number of RETRY) that resolved with the object built from an
    oracle JSON with [qualified = true] or [score >= 6]. The probability
    plays no part, for either service. *)
Theorem judged_qualified_rule cos cfg item qv svs st smart d prov summaryOf :
  passes_prefilter (score_paper cos cfg item qv svs d) = true ->
  failFast cfg && (speedupSampleCount cfg <=? S (processedCount st))%nat
    && (qualifiedCount st =? 0)%nat = false ->
  (processedCount st = 0%nat
   \/ (qualifiedCount st < targetQualifiedCount cfg)%nat) ->
  Forall (service_race prov summaryOf) (d_race d) ->
  let '(_, _, r, _) := process_paper cos cfg item qv svs st smart d in
  (status r = QUALIFIED \/ status r = AI_REJECTED)
  /\ (status r = QUALIFIED
      <-> exists k rest runInference j,
            d_race d = repeat RRetry k ++ RSuccess (analysis_of_json (summaryOf j) j) :: rest
            /\ fst (analyzePaper prov summaryOf runInference)
               = SvcOk (analysis_of_json (summaryOf j) j)
            /\ (runInference false = IOk j
                \/ (prov = Ollama /\ runInference true = IOk j))
            /\ (j_qualified j = true \/ 6 <= score_or0 j)).
Proof.
  intros Hp Hff Hel Hrace.
  rewrite (process_paper_passed _ _ _ _ _ _ _ _ Hp). cbv zeta.
  cbn [processedCount qualifiedCount incr_processed].
  rewrite Hff.
  replace (negb (S (processedCount st) =? 1)%nat
           && (targetQualifiedCount cfg <=? qualifiedCount st)%nat) with false
    by (symmetry; apply andb_false_iff; destruct Hel as [E | E];
        [left; rewrite E; reflexivity | right; apply Nat.leb_gt; exact E]).
  simpl.
  destruct (ai_loop (d_id d) (d_race d)) as [ai evs] eqn:Eai.
  assert (Hai : fst (ai_loop (d_id d) (d_race d)) = ai) by (rewrite Eai; reflexivity).
  destruct ai as [a|]; [destruct (a_qualified a) eqn:Hq|]; simpl.
  - split; [left; reflexivity|]. split; [intros _|reflexivity].
    destruct (ai_loop_qualified _ _ _ Hai Hq) as (k & rest & Er).
    rewrite Er in Hrace. apply Forall_retries_success in Hrace as (runInference & Hs).
    destruct (analyzePaper_result prov summaryOf runInference a Hs)
      as [(j & Hj & ->) | (_ & Hq' & _)].
    + exists k, rest, runInference, j. split; [exact Er|]. split; [exact Hs|].
      split; [exact Hj|]. apply analysis_of_json_qualified in Hq. exact Hq.
    + rewrite Hq in Hq'. discriminate.
  - split; [right; reflexivity|]. split; [discriminate|].
    intros (k & rest & runInference & j & Er & _ & _ & Hj).
    rewrite Er, ai_loop_retries_success in Hai. injection Hai as <-.
    apply (proj2 (analysis_of_json_qualified (summaryOf j) j)) in Hj.
    rewrite Hj in Hq. discriminate.
  - split; [right; reflexivity|]. split; [discriminate|].
    intros (k & rest & runInference & j & Er & _).
    rewrite Er, ai_loop_retries_success in Hai. discriminate.
Qed.

Lemma judged_qualified_rule_witness :
  passes_prefilter
    (score_paper unit_cos sample_cfg sample_item sample_query []
       (relevant_doc 1 [RRetry; race_of_service
                          (fst (analyzePaper Ollama sample_summary
                                  (always json_score5_prob7)))])) = true
  /\ failFast sample_cfg
     && (speedupSampleCount sample_cfg <=? S (processedCount cycle_reset))%nat
     && (qualifiedCount cycle_reset =? 0)%nat = false
  /\ (processedCount cycle_reset = 0%nat
      \/ (qualifiedCount cycle_reset < targetQualifiedCount sample_cfg)%nat)
  /\ Forall (service_race Ollama sample_summary)
       (d_race (relevant_doc 1 [RRetry; race_of_service
                                  (fst (analyzePaper Ollama sample_summary
                                          (always json_score5_prob7)))]))
  /\ let '(_, _, r, _) :=
       process_paper unit_cos sample_cfg sample_item sample_query [] cycle_reset false
         (relevant_doc 1 [RRetry; race_of_service
                                    (fst (analyzePaper Ollama sample_summary
                                            (always json_score5_prob7)))]) in
     (status r = QUALIFIED \/ status r = AI_REJECTED)
     /\ (status r = QUALIFIED
         <-> exists k rest runInference j,
               d_race (relevant_doc 1 [RRetry; race_of_service
                                         (fst (analyzePaper Ollama sample_summary
                                                 (always json_score5_prob7)))])
               = repeat RRetry k ++ RSuccess (analysis_of_json (sample_summary j) j) :: rest
               /\ fst (analyzePaper Ollama sample_summary runInference)
                  = SvcOk (analysis_of_json (sample_summary j) j)
               /\ (runInference false = IOk j
                   \/ (Ollama = Ollama /\ runInference true = IOk j))
               /\ (j_qualified j = true \/ 6 <= score_or0 j)).
Proof.
  split; [reflexivity|]. split; [reflexivity|]. split; [left; reflexivity|].
  assert (Hf : Forall (service_race Ollama sample_summary)
                 (d_race (relevant_doc 1 [RRetry; race_of_service
                                            (fst (analyzePaper Ollama sample_summary
                                                    (always json_score5_prob7)))]))).
  { simpl. constructor; [exact I|]. constructor; [|constructor].
    exists (always json_score5_prob7). reflexivity. }
  split; [exact Hf|].
  apply (judged_qualified_rule unit_cos sample_cfg sample_item sample_query [] cycle_reset
           false _ Ollama sample_summary);
    [reflexivity | reflexivity | left; reflexivity | exact Hf].
Defined.

(** C5 as stated fails: an oracle answer with [qualified = false],
    [score = 5] and [probability = 7] meets the spec's rule, but the
    document is rejected: the Ollama service only overrides the boolean at
    [score >= 6] and ignores the probability. *)
Lemma judged_qualified_rule_counterexample :
  (j_qualified json_score5_prob7 || Qle_bool 5 (score_or0 json_score5_prob7)
   || Qle_bool 5 (probability_or0 json_score5_prob7)) = true
  /\ let '(_, _, r, _) :=
       process_paper unit_cos sample_cfg sample_item sample_query [] cycle_reset false
         (relevant_doc 1 [race_of_service
                            (fst (analyzePaper Ollama sample_summary
                                    (always json_score5_prob7)))]) in
     status r = AI_REJECTED.
Proof. split; vm_compute; reflexivity. Qed.

(** C9 (as the code has it). The score a service returns is capped at 10
    from above only ([Math.min(rawScore, 10)]), and the probability is the
    oracle's value unchanged ([json.probability ?? 0]); no value in (0, 1]
    is rescaled.  When the first inference fails (malformed response or
    error), the analysis the service returns has score 0 and probability
    0; when it succeeds, the score and probability are those of that JSON,
    or, for Ollama only, of the corrective inference's JSON. *)
Theorem service_score_bounds prov summaryOf runInference a :
  fst (analyzePaper prov summaryOf runInference) = SvcOk a ->
  a_score a <= 10
  /\ (failed_inference (runInference false) -> a_score a = 0 /\ a_probability a = 0)
  /\ (forall j0, runInference false = IOk j0 ->
        exists j, (j = j0 \/ (prov = Ollama /\ runInference true = IOk j))
                  /\ a_score a = Qmin (score_or0 j) 10
                  /\ a_probability a = probability_or0 j).
Proof.
  intros H.
  destruct prov; simpl in H; unfold gemini_analyzePaper, ollama_analyzePaper in H;
    destruct (runInference false) as [j0|msg|msg|] eqn:E0;
    [ | | | | destruct (probability_is_zero j0);
              [ destruct (runInference true) as [j1| | |] eqn:E1;
                [ destruct (probability_positive j1) | | | ] | ] | | | ];
    simpl in H; try discriminate H; injection H as <-;
    (split; [first [apply Q.le_min_r | discriminate] |]);
    cbn [failed_inference].
  (* Gemini, parsed JSON *)
  - split; [intros []|]. intros j Hj. injection Hj as <-.
    exists j0. split; [left; reflexivity|]. split; reflexivity.
  (* Gemini, malformed / error / abort *)
  - split; [split; reflexivity|]. intros j Hj. discriminate Hj.
  - split; [split; reflexivity|]. intros j Hj. discriminate Hj.
  - split; [split; reflexivity|]. intros j Hj. discriminate Hj.
  (* Ollama, zero probability, corrective JSON kept *)
  - split; [intros []|]. intros j Hj. injection Hj as <-.
    exists j1. split; [right; split; [reflexivity | reflexivity]|]. split; reflexivity.
  (* Ollama, zero probability, corrective JSON discarded *)
  - split; [intros []|]. intros j Hj. injection Hj as <-.
    exists j0. split; [left; reflexivity|]. split; reflexivity.
  (* Ollama, zero probability, corrective inference failed *)
  - split; [intros []|]. intros j Hj. injection Hj as <-.
    exists j0. split; [left; reflexivity|]. split; reflexivity.
  - split; [intros []|]. intros j Hj. injection Hj as <-.
    exists j0. split; [left; reflexivity|]. split; reflexivity.
  - split; [intros []|]. intros j Hj. injection Hj as <-.
    exists j0. split; [left; reflexivity|]. split; reflexivity.
  (* Ollama, non-zero probability *)
  - split; [intros []|]. intros j Hj. injection Hj as <-.
    exists j0. split; [left; reflexivity|]. split; reflexivity.
  (* Ollama, malformed / error *)
  - split; [split; reflexivity|]. intros j Hj. discriminate Hj.
  - split; [split; reflexivity|]. intros j Hj. discriminate Hj.
Qed.

Lemma service_score_bounds_witness :
  fst (analyzePaper Ollama sample_summary (always json_fractional))
  = SvcOk (analysis_of_json (sample_summary json_fractional) json_fractional)
  /\ a_score (analysis_of_json (sample_summary json_fractional) json_fractional) <= 10
  /\ (failed_inference (always json_fractional false) ->
      a_score (analysis_of_json (sample_summary json_fractional) json_fractional) = 0
      /\ a_probability (analysis_of_json (sample_summary json_fractional) json_fractional) = 0)
  /\ (forall j0, always json_fractional false = IOk j0 ->
        exists j, (j = j0 \/ (Ollama = Ollama /\ always json_fractional true = IOk j))
                  /\ a_score (analysis_of_json (sample_summary json_fractional) json_fractional)
                     = Qmin (score_or0 j) 10
                  /\ a_probability (analysis_of_json (sample_summary json_fractional)
                                      json_fractional)
                     = probability_or0 j).
Proof.
  split; [reflexivity|].
  apply (service_score_bounds Ollama sample_summary (always json_fractional)).
  reflexivity.
Defined.

(** C9 as stated fails: for an oracle answer with [score = 0.5] and
    [probability = 42], both services pass on the probability 42, outside
    [0, 10], and the score 0.5 without rescaling it to 5. *)
Lemma service_score_counterexample :
  (match fst (analyzePaper Ollama sample_summary (always json_fractional)) with
   | SvcOk a => Qle_bool (a_probability a) 10 = false /\ Qeq_bool (a_score a) (1 # 2) = true
   | SvcThrow => False
   end)
  /\ (match fst (analyzePaper Gemini sample_summary (always json_fractional)) with
      | SvcOk a => Qle_bool (a_probability a) 10 = false /\ Qeq_bool (a_score a) (1 # 2) = true
      | SvcThrow => False
      end).
Proof. vm_compute. repeat split. Qed.

(** The Ollama service re-queries once with the correction prompt after a
    probability of 0, and keeps the corrected answer only when its
    probability is positive. *)
Lemma ollama_corrective_requery summaryOf runInference j0 :
  runInference false = IOk j0 ->
  probability_is_zero j0 = true ->
  snd (ollama_analyzePaper summaryOf runInference) = [false; true]
  /\ fst (ollama_analyzePaper summaryOf runInference)
     = SvcOk (match runInference true with
              | IOk j1 => if probability_positive j1
                          then analysis_of_json (summaryOf j1) j1
                          else analysis_of_json (summaryOf j0) j0
              | _ => analysis_of_json (summaryOf j0) j0
              end).
Proof.
  intros H0 Hz. unfold ollama_analyzePaper. rewrite H0, Hz.
  destruct (runInference true) as [j1| | |]; [destruct (probability_positive j1)|..];
    split; reflexivity.
Qed.

(** C8 fails on the Gemini service: after an oracle answer with probability
    0 it sends no corrective prompt, and the zero answer is final. *)
Lemma gemini_no_corrective_requery :
  probability_is_zero json_prob0 = true
  /\ analyzePaper Gemini sample_summary (always json_prob0)
     = (SvcOk (analysis_of_json (sample_summary json_prob0) json_prob0), [false])
  /\ a_probability (analysis_of_json (sample_summary json_prob0) json_prob0) = 0.
Proof. split; [reflexivity|]. split; reflexivity. Qed.

(* ------------------------------------------------------------------ *)
(** ** Composite score and match collection *)

Lemma insert_desc_perm x l : Permutation (insert_desc x l) (x :: l).
Proof.
  induction l as [|y l IH]; simpl; [reflexivity|].
  destruct (Qle_bool y x); [reflexivity|].
  rewrite IH. apply perm_swap.
Qed.

Lemma sort_desc_perm l : Permutation (sort_desc l) l.
Proof.
  induction l as [|x l IH]; simpl; [reflexivity|].
  rewrite insert_desc_perm, IH. reflexivity.
Qed.

Lemma insert_desc_sorted x l : sorted_desc l -> sorted_desc (insert_desc x l).
Proof.
  unfold sorted_desc. induction 1 as [|y l Hs IH Hhd]; simpl.
  - repeat constructor.
  - case_eq (Qle_bool y x); intros Hyx.
    + apply Qle_bool_iff in Hyx. repeat constructor; assumption.
    + assert (Hxy : x <= y).
      { apply Qlt_le_weak, Qnot_le_lt. intros H. apply Qle_bool_iff in H. congruence. }
      constructor; [exact IH|].
      destruct l as [|z l]; simpl.
      * constructor. exact Hxy.
      * inversion Hhd; subst.
        destruct (Qle_bool z x); constructor; assumption.
Qed.

Lemma sort_desc_sorted l : sorted_desc (sort_desc l).
Proof.
  induction l as [|x l IH]; simpl; [constructor|].
  apply insert_desc_sorted, IH.
Qed.

Lemma fold_left_Qplus_acc l a : fold_left Qplus l a == a + fold_left Qplus l 0.
Proof.
  revert a. induction l as [|y l IH]; intros a; simpl.
  - ring.
  - rewrite (IH (a + y)), (IH (0 + y)). ring.
Qed.

Lemma Qsum_cons x l : Qsum (x :: l) == x + Qsum l.
Proof. unfold Qsum. simpl. rewrite fold_left_Qplus_acc. ring. Qed.

Lemma Qsum_perm l l' : Permutation l l' -> Qsum l == Qsum l'.
Proof.
  induction 1 as [| x l l' _ IH | x y l | l l' l'' _ IH1 _ IH2].
  - reflexivity.
  - rewrite !Qsum_cons, IH. reflexivity.
  - rewrite !Qsum_cons. ring.
  - rewrite IH1. exact IH2.
Qed.

Lemma above_threshold_spec s :
  (if Qlt_le_dec (35 # 100) s then true else false) = above_threshold s.
Proof.
  unfold above_threshold.
  destruct (Qlt_le_dec (35 # 100) s) as [H|H].
  - case_eq (Qle_bool s (35 # 100)); intros E; [|reflexivity].
    apply Qle_bool_iff in E. exfalso. apply (Qlt_not_le _ _ H E).
  - apply Qle_bool_iff in H. rewrite H. reflexivity.
Qed.

Lemma collect_matches_rules cosineSimilarity pv svs :
  collect_matches (map (rule_entry cosineSimilarity pv) svs)
  = rule_matches cosineSimilarity pv svs.
Proof.
  unfold rule_matches. induction svs as [|sv svs IH]; [reflexivity|].
  cbn [map filter]. rewrite <- above_threshold_spec. unfold rule_entry at 1.
  destruct (Qlt_le_dec (35 # 100) (cosineSimilarity (sv_vector sv) pv));
    cbn [collect_matches map]; rewrite IH; reflexivity.
Qed.

Lemma map_fst_rule_entry cosineSimilarity pv svs :
  map fst (map (rule_entry cosineSimilarity pv) svs)
  = contributions cosineSimilarity pv svs.
Proof.
  unfold contributions. rewrite map_map. reflexivity.
Qed.

Lemma composite_cons cosineSimilarity pv sv svs :
  composite cosineSimilarity (Some pv) (sv :: svs)
  = (Qsum (firstn 6 (sort_desc (contributions cosineSimilarity pv (sv :: svs)))) / 6,
     rule_matches cosineSimilarity pv (sv :: svs)).
Proof.
  unfold composite. cbv beta iota zeta.
  rewrite map_fst_rule_entry, collect_matches_rules. reflexivity.
Qed.

Lemma composite_matches cosineSimilarity pvo svs :
  snd (composite cosineSimilarity pvo svs)
  = match pvo with
    | Some pv => rule_matches cosineSimilarity pv svs
    | None => []
    end.
Proof.
  destruct pvo as [pv|]; [|reflexivity].
  destruct svs as [|sv svs]; [reflexivity|].
  rewrite composite_cons. reflexivity.
Qed.

Lemma score_paper_matches cosineSimilarity cfg it queryVector svs d :
  matches (score_paper cosineSimilarity cfg it queryVector svs d)
  = snd (composite cosineSimilarity (d_vector d) svs).
Proof.
  unfold score_paper. destruct (composite cosineSimilarity (d_vector d) svs). reflexivity.
Qed.

Lemma process_paper_matches cosineSimilarity cfg it queryVector svs st smart d :
  let '(_, _, r, _) := process_paper cosineSimilarity cfg it queryVector svs st smart d in
  r_matches r = firstn 3 (matches (score_paper cosineSimilarity cfg it queryVector svs d)).
Proof.
  unfold process_paper. cbv zeta.
  repeat match goal with
         | |- context [if ?b then _ else _] => destruct b
         | |- context [ai_loop ?i ?rs] => destruct (ai_loop i rs)
         end; reflexivity.
Qed.

(** C6 (as the code has it). With a paper vector and a non-empty rule list,
    the composite score is the sum of the 6 highest signed contributions
    (sorted highest first; the sort only permutes them) divided by a fixed
    6, so with at most 6 rules it is the sum of all contributions over 6,
    not their average. The match records are exactly the rules whose raw
    similarity exceeds 0.35, in rule order. Without a paper vector or
    without rules the score is 0 and there are no matches. *)
Theorem composite_rule cosineSimilarity pv svs :
  let ws := contributions cosineSimilarity pv svs in
  (svs <> [] ->
   fst (composite cosineSimilarity (Some pv) svs) = Qsum (firstn 6 (sort_desc ws)) / 6)
  /\ sorted_desc (sort_desc ws) /\ Permutation (sort_desc ws) ws
  /\ (svs <> [] -> (List.length svs <= 6)%nat ->
      fst (composite cosineSimilarity (Some pv) svs) == Qsum ws / 6)
  /\ snd (composite cosineSimilarity (Some pv) svs) = rule_matches cosineSimilarity pv svs
  /\ composite cosineSimilarity (Some pv) [] = (0, [])
  /\ composite cosineSimilarity None svs = (0, []).
Proof.
  intros ws.
  split; [|split; [apply sort_desc_sorted|split; [apply sort_desc_perm|]]].
  - destruct svs as [|sv svs]; [intros H; congruence|].
    intros _. rewrite composite_cons. reflexivity.
  - split; [|split; [apply (composite_matches _ (Some pv))|split; reflexivity]].
    destruct svs as [|sv svs]; [intros H; congruence|].
    intros _ Hlen. rewrite composite_cons. cbn [fst].
    fold ws. rewrite firstn_all2.
    + rewrite (Qsum_perm _ _ (sort_desc_perm ws)). reflexivity.
    + rewrite (Permutation_length (sort_desc_perm ws)). unfold ws, contributions.
      rewrite length_map. exact Hlen.
Qed.

Lemma composite_rule_witness :
  [rule_x] <> [] /\ (List.length [rule_x] <= 6)%nat
  /\ fst (composite unit_cos (Some [3 # 5; 4 # 5]) [rule_x])
     == Qsum (contributions unit_cos [3 # 5; 4 # 5] [rule_x]) / 6.
Proof.
  split; [discriminate|]. split; [simpl; lia|].
  destruct (composite_rule unit_cos [3 # 5; 4 # 5] [rule_x]) as (_ & _ & _ & H & _).
  apply H; [discriminate | simpl; lia].
Defined.

(** C6 as stated fails: with a single rule whose similarity to the paper is
    3/5, the spec's average is 3/5 but the code's composite score is
    (3/5)/6 = 1/10. *)
Lemma composite_rule_counterexample :
  Qeq_bool (fst (composite unit_cos (Some [3 # 5; 4 # 5]) [rule_x]))
    (spec_composite (contributions unit_cos [3 # 5; 4 # 5] [rule_x])) = false
  /\ Qeq_bool (fst (composite unit_cos (Some [3 # 5; 4 # 5]) [rule_x])) (1 # 10) = true
  /\ Qeq_bool (spec_composite (contributions unit_cos [3 # 5; 4 # 5] [rule_x])) (3 # 5)
     = true.
Proof. vm_compute. repeat split. Qed.

(** C10 (what the code does). The match list of every result is the first
    3 collected matches ([matches.slice(0, 3)]): at most 3 records, in the
    order of the rule configuration. The array is never sorted, although
    the [ProcessingResult] type documents it as the top semantic matches
    and the network sidebar shows it as the top 3. *)
Theorem top_matches_rule cosineSimilarity cfg it queryVector svs st smart d :
  let '(_, _, r, _) := process_paper cosineSimilarity cfg it queryVector svs st smart d in
  r_matches r = firstn 3 (match d_vector d with
                          | Some pv => rule_matches cosineSimilarity pv svs
                          | None => []
                          end)
  /\ (List.length (r_matches r) <= 3)%nat.
Proof.
  pose proof (process_paper_matches cosineSimilarity cfg it queryVector svs st smart d) as H.
  destruct (process_paper cosineSimilarity cfg it queryVector svs st smart d)
    as [[[st' smart'] r] evs].
  rewrite H, score_paper_matches, composite_matches.
  split; [reflexivity|]. rewrite length_firstn. lia.
Qed.

(** C10 fails on the code: with the rules [x] and [y] in that order and a
    paper with similarity 3/5 to [x] and 4/5 to [y], the result lists the
    3/5 match before the 4/5 one, so the highest raw similarity is not
    first. *)
Lemma top_matches_counterexample :
  let '(_, _, r, _) :=
    process_paper unit_cos sample_cfg sample_item sample_query [rule_x; rule_y]
      cycle_reset false (relevant_doc 1 []) in
  match map m_rawScore (r_matches r) with
  | [a; b] => Qeq_bool a (3 # 5) && Qeq_bool b (4 # 5) && negb (Qle_bool b a)
  | _ => false
  end = true.
Proof. vm_compute. reflexivity. Qed.

(* ------------------------------------------------------------------ *)
(** ** Feed, counters and statistics *)

Lemma feed_results_app l1 l2 : feed_results (l1 ++ l2) = feed_results l1 ++ feed_results l2.
Proof. unfold feed_results. apply flat_map_app. Qed.

Lemma feed_results_ai_loop pid rs : feed_results (snd (ai_loop pid rs)) = [].
Proof.
  pose proof (ai_loop_events pid rs) as H. induction H as [|e l He _ IH]; [reflexivity|].
  subst e. exact IH.
Qed.

Ltac counts_close :=
  repeat split; try lia;
  try (rewrite ?orb_true_r, ?orb_false_r; reflexivity);
  try (intros Hx; discriminate Hx); try (intros; reflexivity).

Lemma process_paper_counts cos cfg item qv svs st smart d :
  let '(st', _, r, evs) := process_paper cos cfg item qv svs st smart d in
  feed_results evs = [r]
  /\ qualifiedCount st' = (qualifiedCount st + if is_qualified_status (status r) then 1 else 0)%nat
  /\ processedCount st'
     = (processedCount st + if Status_eqb (status r) FILTERED_OUT then 0 else 1)%nat
  /\ failFastTriggered st' = (failFastTriggered st || Status_eqb (status r) SKIPPED_FAIL_FAST)
  /\ (skippedAi r = false
      <-> (Status_eqb (status r) QUALIFIED || Status_eqb (status r) AI_REJECTED) = true).
Proof.
  destruct (passes_prefilter (score_paper cos cfg item qv svs d)) eqn:Hp.
  - rewrite (process_paper_passed _ _ _ _ _ _ _ _ Hp). cbv zeta.
    destruct (failFast cfg && _ && _).
    + cbn. counts_close.
    + destruct (negb _ && _) eqn:He; destruct smart; cbn [andb negb].
      * cbn. counts_close.
      * cbn. counts_close.
      * destruct (ai_loop (d_id d) (d_race d)) as [ai evs] eqn:E.
        pose proof (feed_results_ai_loop (d_id d) (d_race d)) as Hf. rewrite E in Hf.
        simpl in Hf.
        destruct ai as [a|]; [destruct (a_qualified a)|]; cbn;
          rewrite feed_results_app; cbn; rewrite Hf;
          counts_close.
      * destruct (ai_loop (d_id d) (d_race d)) as [ai evs] eqn:E.
        pose proof (feed_results_ai_loop (d_id d) (d_race d)) as Hf. rewrite E in Hf.
        simpl in Hf.
        destruct ai as [a|]; [destruct (a_qualified a)|]; cbn;
          rewrite feed_results_app; cbn; rewrite Hf;
          counts_close.
  - rewrite (process_paper_filtered _ _ _ _ _ _ _ _ Hp). cbn.
    counts_close.
Qed.

(** [skippedAi] is off exactly for the documents sent to the judgment
    service. *)
Definition judged_flag (r : ProcessingResult) : Prop :=
  skippedAi r = negb (Status_eqb (status r) QUALIFIED || Status_eqb (status r) AI_REJECTED).

Lemma process_paper_judged_flag cos cfg item qv svs st smart d :
  let '(_, _, r, _) := process_paper cos cfg item qv svs st smart d in judged_flag r.
Proof.
  pose proof (process_paper_counts cos cfg item qv svs st smart d) as H.
  destruct (process_paper cos cfg item qv svs st smart d) as [[[st' sm'] r] evs].
  destruct H as (_ & _ & _ & _ & Hiff). unfold judged_flag.
  destruct (skippedAi r), (Status_eqb (status r) QUALIFIED || Status_eqb (status r) AI_REJECTED);
    try reflexivity; exfalso.
  - apply proj2 in Hiff. specialize (Hiff eq_refl). discriminate.
  - apply proj1 in Hiff. specialize (Hiff eq_refl). discriminate.
Qed.

Lemma batch_counts cos cfg item qv svs ds :
  forall st smart,
  let '(st', _, evs, _) := processPaperBatch cos cfg item qv svs st smart ds in
  qualifiedCount st' = (qualifiedCount st + List.length (export_collector evs))%nat
  /\ processedCount st' = (processedCount st + List.length (prefiltered_results evs))%nat
  /\ Forall judged_flag (feed_results evs).
Proof.
  induction ds as [|d ds IH]; intros st smart; cbn [processPaperBatch].
  - cbn. repeat split; lia || constructor.
  - destruct (failFastTriggered st); [cbn; repeat split; lia || constructor|].
    pose proof (process_paper_counts cos cfg item qv svs st smart d) as Hc.
    pose proof (process_paper_judged_flag cos cfg item qv svs st smart d) as Hj.
    destruct (process_paper cos cfg item qv svs st smart d) as [[[st1 sm1] r] evs1].
    destruct Hc as (Hf & Hq & Hp & _).
    unfold export_collector, prefiltered_results.
    destruct (failFastTriggered st1).
    + rewrite Hf. cbn.
      destruct (is_qualified_status (status r)), (Status_eqb (status r) FILTERED_OUT);
        cbn; repeat split; try lia; repeat constructor; exact Hj.
    + specialize (IH st1 sm1).
      destruct (processPaperBatch cos cfg item qv svs st1 sm1 ds) as [[[st2 sm2] evs2] stop].
      destruct IH as (IHq & IHp & IHf).
      unfold export_collector, prefiltered_results in *.
      rewrite feed_results_app, Hf, !filter_app, !length_app. cbn.
      repeat split.
      * destruct (is_qualified_status (status r)); cbn; lia.
      * destruct (Status_eqb (status r) FILTERED_OUT); cbn; lia.
      * constructor; assumption.
Qed.

Lemma batch_loop_counts cos cfg item qv svs fetchPage fuel :
  forall currentStart STOP_LIMIT st smart,
  let '(st', _, evs, _) :=
    batch_loop cos cfg item qv svs fetchPage fuel currentStart STOP_LIMIT st smart in
  qualifiedCount st' = (qualifiedCount st + List.length (export_collector evs))%nat
  /\ processedCount st' = (processedCount st + List.length (prefiltered_results evs))%nat
  /\ Forall judged_flag (feed_results evs).
Proof.
  induction fuel as [|fuel IH]; intros currentStart STOP_LIMIT st smart; cbn [batch_loop].
  - cbn. repeat split; lia || constructor.
  - destruct (currentStart <? STOP_LIMIT)%nat; [|cbn; repeat split; lia || constructor].
    destruct (failFastTriggered st); [cbn; repeat split; lia || constructor|].
    remember (Nat.min BATCH_SIZE (STOP_LIMIT - currentStart)) as size.
    destruct (fetchPage currentStart size) as [[|d ds]|].
    + cbn. repeat split; lia || constructor.
    + pose proof (batch_counts cos cfg item qv svs (d :: ds) st smart) as Hb.
      destruct (processPaperBatch cos cfg item qv svs st smart (d :: ds))
        as [[[st1 sm1] evs1] stop].
      destruct Hb as (Hq1 & Hp1 & Hf1).
      destruct stop; [exact (conj Hq1 (conj Hp1 Hf1))|].
      specialize (IH (currentStart + BATCH_SIZE)%nat STOP_LIMIT st1 sm1).
      destruct (batch_loop cos cfg item qv svs fetchPage fuel (currentStart + BATCH_SIZE)
                  STOP_LIMIT st1 sm1) as [[[st2 sm2] evs2] ffs].
      destruct IH as (Hq2 & Hp2 & Hf2).
      unfold export_collector, prefiltered_results in *.
      change (EvFetch currentStart size :: evs1 ++ evs2)
        with ([EvFetch currentStart size] ++ evs1 ++ evs2).
      rewrite !feed_results_app, !filter_app, !length_app. cbn.
      repeat split; try lia. apply Forall_app; split; assumption.
    + specialize (IH (currentStart + BATCH_SIZE)%nat STOP_LIMIT st smart).
      destruct (batch_loop cos cfg item qv svs fetchPage fuel (currentStart + BATCH_SIZE)
                  STOP_LIMIT st smart) as [[[st2 sm2] evs2] ffs].
      exact IH.
Qed.

Lemma stats_fold_fields l : forall s,
  let s' := fold_left stats_update l s in
  totalScanned s' = (totalScanned s + List.length l)%nat
  /\ aiAnalyzed s' = (aiAnalyzed s + List.length (filter (fun r => negb (skippedAi r)) l))%nat
  /\ energySaved s' = (energySaved s + List.length (filter skippedAi l))%nat
  /\ qualified s'
     = (qualified s + List.length (filter (fun r => is_qualified_status (status r)) l))%nat.
Proof.
  induction l as [|r l IH]; intros s; cbn [fold_left].
  - cbn. repeat split; lia.
  - destruct (IH (stats_update s r)) as (H1 & H2 & H3 & H4). cbn zeta in *.
    rewrite H1, H2, H3, H4. cbn.
    destruct (skippedAi r), (is_qualified_status (status r)); cbn; repeat split; lia.
Qed.

Lemma filter_judged l :
  Forall judged_flag l ->
  filter (fun r => negb (skippedAi r)) l
  = filter (fun r => Status_eqb (status r) QUALIFIED || Status_eqb (status r) AI_REJECTED) l.
Proof.
  intros H. apply filter_ext_in. intros r Hr.
  rewrite Forall_forall in H. rewrite (H r Hr). apply negb_involutive.
Qed.

Lemma filter_skipped_length l :
  (List.length (filter skippedAi l) + List.length (filter (fun r => negb (skippedAi r)) l))%nat
  = List.length l.
Proof.
  induction l as [|r l IH]; [reflexivity|]. cbn. destruct (skippedAi r); cbn; lia.
Qed.

(** X1. At the end of a query, [cycleRef.qualifiedCount] equals the number
    of qualified results in the feed, which is the size of the export
    collector reported by the [CYCLE_COMPLETE] block, and
    [cycleRef.processedCount] equals the number of results that passed the
    pre-filter. *)
Theorem query_counters_match_feed cos cfg item qv svs fetchPage :
  let '(st, evs) := run_query cos cfg item qv svs fetchPage in
  qualifiedCount st = List.length (export_collector evs)
  /\ processedCount st = List.length (prefiltered_results evs).
Proof.
  unfold run_query.
  pose proof (batch_loop_counts cos cfg item qv svs fetchPage (S (STOP_LIMIT item))
                (startRec item) (STOP_LIMIT item) cycle_reset false) as H.
  destruct (batch_loop cos cfg item qv svs fetchPage (S (STOP_LIMIT item)) (startRec item)
              (STOP_LIMIT item) cycle_reset false) as [[[st sm] evs] ffs].
  destruct H as (Hq & Hp & _).
  unfold export_collector, prefiltered_results in *.
  rewrite feed_results_app. cbn [feed_results flat_map]. rewrite app_nil_r.
  split; [exact Hq | exact Hp].
Qed.

(** X2. Over the papers of a query, the statistics grow by one scanned
    paper per result; [aiAnalyzed] grows by the number of results sent to
    the judgment service (QUALIFIED or AI_REJECTED) and [energySaved] by
    the others, so [aiAnalyzed + energySaved] keeps pace with
    [totalScanned]; [qualified] grows by the query's [qualifiedCount]. *)
Theorem query_stats cos cfg item qv svs fetchPage s :
  let '(st, evs) := run_query cos cfg item qv svs fetchPage in
  let s' := feed_stats s evs in
  totalScanned s' = (totalScanned s + List.length (feed_results evs))%nat
  /\ aiAnalyzed s' = (aiAnalyzed s + List.length (judged_results evs))%nat
  /\ (aiAnalyzed s' + energySaved s'
      = aiAnalyzed s + energySaved s + List.length (feed_results evs))%nat
  /\ qualified s' = (qualified s + qualifiedCount st)%nat.
Proof.
  unfold run_query.
  pose proof (batch_loop_counts cos cfg item qv svs fetchPage (S (STOP_LIMIT item))
                (startRec item) (STOP_LIMIT item) cycle_reset false) as H.
  destruct (batch_loop cos cfg item qv svs fetchPage (S (STOP_LIMIT item)) (startRec item)
              (STOP_LIMIT item) cycle_reset false) as [[[st sm] evs] ffs].
  destruct H as (Hq & _ & Hj).
  unfold feed_stats, judged_results.
  rewrite feed_results_app. cbn [feed_results flat_map]. rewrite app_nil_r.
  destruct (stats_fold_fields (feed_results evs) s) as (H1 & H2 & H3 & H4).
  cbn zeta in *. rewrite H1, H2, H3, H4, <- (filter_judged _ Hj).
  pose proof (filter_skipped_length (feed_results evs)).
  unfold export_collector in Hq. cbn in Hq.
  repeat split; lia.
Qed.

(* ------------------------------------------------------------------ *)
(** ** RIS export *)

Lemma Status_eqb_true a b : Status_eqb a b = true <-> a = b.
Proof. destruct a, b; cbn; split; intros H; congruence. Qed.

Lemma str_app_assoc (a b c : string) : ((a ++ b) ++ c)%string = (a ++ (b ++ c))%string.
Proof. induction a as [|x a IH]; cbn; [reflexivity|]. rewrite IH. reflexivity. Qed.

Lemma str_app_nil_r (a : string) : (a ++ "")%string = a.
Proof. induction a as [|x a IH]; cbn; [reflexivity|]. rewrite IH. reflexivity. Qed.

Lemma fold_append {A} (f : A -> string) l : forall acc,
  fold_left (fun s x => s ++ f x)%string l acc
  = (acc ++ fold_left (fun s x => s ++ f x)%string l ""%string)%string.
Proof.
  induction l as [|x l IH]; intros acc; cbn.
  - symmetry. apply str_app_nil_r.
  - rewrite (IH (acc ++ f x)%string), (IH (f x)). apply str_app_assoc.
Qed.

Lemma generateRIS_fold ns items :
  generateRIS ns items
  = fold_left (fun s it => s ++ ris_record ns it)%string (filter ris_qualified items) ""%string.
Proof. unfold generateRIS. destruct (filter ris_qualified items); reflexivity. Qed.

Lemma filter_idem {A} (f : A -> bool) l : filter f (filter f l) = filter f l.
Proof.
  induction l as [|x l IH]; cbn; [reflexivity|].
  destruct (f x) eqn:E; cbn; [rewrite E, IH|]; auto.
Qed.

Lemma ris_record_head ns it : exists c s, ris_record ns it = String c s.
Proof. do 2 eexists. reflexivity. Qed.

Lemma fold_records_empty ns l :
  fold_left (fun s it => s ++ ris_record ns it)%string l ""%string = ""%string <-> l = [].
Proof.
  destruct l as [|it l]; cbn [fold_left]; [tauto|].
  rewrite fold_append. destruct (ris_record_head ns it) as (c & s & ->).
  split; intros H; discriminate H.
Qed.

Lemma filter_nil_iff {A} (f : A -> bool) l :
  filter f l = [] <-> (forall x, In x l -> f x = false).
Proof.
  induction l as [|x l IH]; cbn; [tauto|].
  destruct (f x) eqn:E; split.
  - discriminate.
  - intros H. rewrite (H x (or_introl eq_refl)) in E. discriminate.
  - intros H y [<-|Hy]; [exact E | apply IH; assumption].
  - intros H. apply IH. intros y Hy. apply H. right. exact Hy.
Qed.

(** X3. [generateRIS] writes a record only for results whose status is
    QUALIFIED: its output is that of the QUALIFIED results alone (results
    qualified by the fast path, QUALIFIED_SPEEDUP, are dropped), and it is
    empty exactly when no result is QUALIFIED. *)
Theorem generateRIS_qualified_only ns items :
  generateRIS ns items
  = generateRIS ns (filter (fun it => Status_eqb (x_status (x_result it)) QUALIFIED) items)
  /\ (generateRIS ns items = ""%string
      <-> forall it, In it items -> x_status (x_result it) <> QUALIFIED).
Proof.
  split.
  - rewrite !generateRIS_fold. fold ris_qualified. rewrite filter_idem. reflexivity.
  - rewrite generateRIS_fold, fold_records_empty, filter_nil_iff.
    unfold ris_qualified. split.
    + intros H it Hit Heq. specialize (H it Hit). rewrite Heq in H. discriminate.
    + intros H it Hit. destruct (Status_eqb (x_status (x_result it)) QUALIFIED) eqn:E;
        [|reflexivity].
      apply Status_eqb_true in E. exfalso. exact (H it Hit E).
Qed.

(** X4. The RIS text of a concatenation of result lists is the
    concatenation of their RIS texts: exporting in parts and joining the
    files gives the same text. *)
Theorem generateRIS_app ns a b :
  generateRIS ns (a ++ b) = (generateRIS ns a ++ generateRIS ns b)%string.
Proof.
  rewrite !generateRIS_fold, filter_app, fold_left_app.
  rewrite fold_append. reflexivity.
Qed.

Lemma export_items_in feed it :
  In it (export_items feed)
  <-> In (FPaper it) feed /\ is_qualified_status (x_status (x_result it)) = true.
Proof.
  unfold export_items. rewrite filter_In, in_flat_map.
  split.
  - intros ((f & Hf & Hin) & Hq). split; [|exact Hq].
    destruct f as [x|]; [|destruct Hin]. destruct Hin as [<-|[]]. exact Hf.
  - intros (Hf & Hq). split; [|exact Hq]. exists (FPaper it). split; [exact Hf | left; reflexivity].
Qed.

(** X5. With the Zotero upload off, exporting a feed whose qualified papers
    were all qualified by the fast path (QUALIFIED_SPEEDUP, at least one)
    passes the "no qualified papers" check of [handleExport] but produces
    no RIS download: [generateRIS] returns [""] for them. *)
Theorem export_fast_path_only_nothing ns feed zs userWantsRis :
  (exists it, In (FPaper it) feed /\ x_status (x_result it) = QUALIFIED_SPEEDUP) ->
  (forall it, In (FPaper it) feed -> x_status (x_result it) <> QUALIFIED) ->
  handleExport ns feed false zs userWantsRis = ExNothing.
Proof.
  intros (it & Hin & Hs) Hnq. unfold handleExport.
  destruct (export_items feed) as [|x l] eqn:E.
  - exfalso. assert (Hit : In it (export_items feed)).
    { apply export_items_in. split; [exact Hin|]. rewrite Hs. reflexivity. }
    rewrite E in Hit. destruct Hit.
  - cbn [runSpeedupJobExport].
    assert (Hg : generateRIS ns (x :: l) = ""%string).
    { rewrite generateRIS_fold, fold_records_empty, filter_nil_iff.
      intros y Hy. rewrite <- E in Hy. apply export_items_in in Hy.
      destruct Hy as (Hy & _). unfold ris_qualified.
      destruct (Status_eqb (x_status (x_result y)) QUALIFIED) eqn:Ey; [|reflexivity].
      apply Status_eqb_true in Ey. exfalso. exact (Hnq y Hy Ey). }
    cbv zeta. rewrite Hg. reflexivity.
Qed.

(* ------------------------------------------------------------------ *)
(** ** Network log list *)







Lemma NoDup_skipn_list {A} n (l : list A) : NoDup l -> NoDup (skipn n l).
Proof.
  revert l. induction n as [|n IH]; intros l H; [exact H|].
  destruct l as [|x l]; [constructor|]. cbn. apply IH. inversion H; assumption.
Qed.

Lemma handleNetworkLog_ids {V} (prev : list (NetworkLog V)) log :
  existsb (fun l => String.eqb (log_id l) (log_id log)) prev = true ->
  map log_id (handleNetworkLog V prev log) = map log_id prev.
Proof.
  intros E. unfold handleNetworkLog. rewrite E.
  rewrite map_map. apply map_ext. intros l.
  destruct (String.eqb (log_id l) (log_id log)) eqn:El; [|reflexivity].
  apply String.eqb_eq in El. cbn. symmetry. exact El.
Qed.

Lemma existsb_false_not_in {V} (prev : list (NetworkLog V)) id :
  existsb (fun l => String.eqb (log_id l) id) prev = false -> ~ In id (map log_id prev).
Proof.
  intros H Hin. apply in_map_iff in Hin. destruct Hin as (l & Hl & Hin).
  assert (existsb (fun l => String.eqb (log_id l) id) prev = true).
  { apply existsb_exists. exists l. split; [exact Hin|]. apply String.eqb_eq. exact Hl. }
  congruence.
Qed.

(** X6. [handleNetworkLog] keeps the log list free of repeated ids and at
    most 200 entries long: an update of a known id rewrites that entry in
    place, and a new id is appended with the oldest entries dropped beyond
    200. *)
Theorem handleNetworkLog_invariant {V} (prev : list (NetworkLog V)) log :
  NoDup (map log_id prev) -> (List.length prev <= 200)%nat ->
  NoDup (map log_id (handleNetworkLog V prev log))
  /\ (List.length (handleNetworkLog V prev log) <= 200)%nat.
Proof.
  intros Hd Hl.
  destruct (existsb (fun l => String.eqb (log_id l) (log_id log)) prev) eqn:E.
  - rewrite (handleNetworkLog_ids prev log E). split; [exact Hd|].
    unfold handleNetworkLog. rewrite E, length_map. exact Hl.
  - unfold handleNetworkLog. rewrite E. cbv zeta. split.
    + rewrite <- skipn_map. apply NoDup_skipn_list. rewrite map_app. cbn.
      apply NoDup_app; [exact Hd | repeat constructor; intros [] | ].
      intros x Hx [<-|[]]. exact (existsb_false_not_in prev _ E Hx).
    + rewrite length_skipn, length_app. cbn. lia.
Qed.







(* ------------------------------------------------------------------ *)
(** ** Query queue *)

Lemma QueueStatus_eqb_true a b : QueueStatus_eqb a b = true <-> a = b.
Proof. destruct a, b; cbn; split; intros H; congruence. Qed.

(** X8. A single run takes the first pending query of the queue, the one a
    cycle run would take first; a cycle run takes exactly the ids of the
    queue entries that are [READY] or [NEEDS_ADJUSTMENT], in queue order. *)
Theorem targetIds_single_first_of_cycle (q : list QueueEntry) :
  targetIds RunSingle q = firstn 1 (targetIds RunCycle q)
  /\ (forall id, In id (targetIds RunCycle q)
        <-> exists e, In e q /\ q_id e = id
                      /\ (q_status e = READY \/ q_status e = NEEDS_ADJUSTMENT)).
Proof.
  split.
  - induction q as [|e q IH]; cbn; [reflexivity|].
    destruct (is_pending (q_status e)); cbn; [reflexivity|exact IH].
  - intros id. cbn. rewrite in_map_iff. split.
    + intros (e & He & Hin). apply filter_In in Hin. destruct Hin as [Hin Hp].
      exists e. split; [exact Hin|]. split; [exact He|].
      unfold is_pending in Hp. apply orb_true_iff in Hp.
      destruct Hp as [Hp|Hp]; apply QueueStatus_eqb_true in Hp; [left|right]; exact Hp.
    + intros (e & Hin & He & Hs). exists e. split; [exact He|].
      apply filter_In. split; [exact Hin|].
      destruct Hs as [Hs|Hs]; rewrite Hs; reflexivity.
Qed.

Lemma length_map_from {A B} (f : nat -> A -> B) i l : List.length (map_from f i l) = List.length l.
Proof. revert i; induction l as [|x l IH]; intros i; cbn; [reflexivity|]. rewrite IH. reflexivity. Qed.

Lemma nth_error_map_from {A B} (f : nat -> A -> B) l : forall i n,
  nth_error (map_from f i l) n = option_map (f (i + n)%nat) (nth_error l n).
Proof.
  induction l as [|x l IH]; intros i n; cbn; [destruct n; reflexivity|].
  destruct n as [|n]; cbn.
  - rewrite Nat.add_0_r. reflexivity.
  - rewrite IH. f_equal. f_equal. lia.
Qed.

(** X9. [updateQueueStatus prev index status extra] keeps the length and
    every entry but the one at [index]; that one keeps its id, takes
    [status], and takes [extra] as its yield when given, its old yield
    otherwise. An index past the end leaves the queue unchanged. *)
Theorem updateQueueStatus_spec prev index status extra :
  List.length (updateQueueStatus prev index status extra) = List.length prev
  /\ (forall j, j <> index -> nth_error (updateQueueStatus prev index status extra) j = nth_error prev j)
  /\ nth_error (updateQueueStatus prev index status extra) index
     = option_map (fun item => {| q_id := q_id item; q_status := status;
                                  q_yield := match extra with Some y => Some y | None => q_yield item end |})
                  (nth_error prev index)
  /\ ((List.length prev <= index)%nat -> updateQueueStatus prev index status extra = prev).
Proof.
  unfold updateQueueStatus. split; [apply length_map_from|]. split; [|split].
  - intros j Hj. rewrite nth_error_map_from. cbn.
    destruct (nth_error prev j); cbn; [|reflexivity].
    apply Nat.eqb_neq in Hj. rewrite Hj. reflexivity.
  - rewrite nth_error_map_from. cbn. rewrite Nat.eqb_refl. reflexivity.
  - intros Hl. apply nth_error_ext. intros j.
    rewrite nth_error_map_from. cbn.
    destruct (nth_error prev j) eqn:Ej; cbn; [|reflexivity].
    assert (j < List.length prev)%nat by (apply nth_error_Some; congruence).
    replace (j =? index)%nat with false by (symmetry; apply Nat.eqb_neq; lia). reflexivity.
Qed.

(** X10. With a run in progress (a controller present), [handleCancel] keeps
    every queue id in place, turns each [RUNNING] entry into [CANCELLED]
    and no other, leaves no [RUNNING] entry, and clears the processing
    flags; with no run in progress it changes nothing. *)
Theorem handleCancel_spec s :
  (hasController s = true ->
     let s' := handleCancel s in
     map q_id (c_queue s') = map q_id (c_queue s)
     /\ (forall e, In e (c_queue s') -> q_status e <> RUNNING)
     /\ (forall j e, nth_error (c_queue s) j = Some e ->
           nth_error (c_queue s') j
           = Some (if QueueStatus_eqb (q_status e) RUNNING
                   then {| q_id := q_id e; q_status := CANCELLED; q_yield := q_yield e |}
                   else e))
     /\ hasController s' = false /\ c_isProcessing s' = false /\ c_processingState s' = false)
  /\ (hasController s = false -> handleCancel s = s).
Proof.
  unfold handleCancel. split; intros H; rewrite H; [|reflexivity].
  cbn. split; [|split; [|split]].
  - rewrite map_map. apply map_ext. intros e.
    destruct (QueueStatus_eqb (q_status e) RUNNING); reflexivity.
  - intros e Hin. apply in_map_iff in Hin. destruct Hin as (x & <- & _).
    destruct (QueueStatus_eqb (q_status x) RUNNING) eqn:Ex; cbn; [discriminate|].
    intros Hr. rewrite Hr in Ex. discriminate Ex.
  - intros j e Hj. rewrite nth_error_map, Hj. reflexivity.
  - repeat split.
Qed.

(* ------------------------------------------------------------------ *)
(** ** Embeddings of a batch *)

Lemma firstn_add_list {A} n m (l : list A) :
  firstn (n + m) l = firstn n l ++ firstn m (skipn n l).
Proof.
  revert l; induction n as [|n IH]; intros l; cbn; [reflexivity|].
  destruct l as [|x l]; cbn; [rewrite firstn_nil; reflexivity|]. rewrite IH. reflexivity.
Qed.

Lemma chunk_loop_prefix {P E} (getE : P -> E) aborted papers k : forall fuel j,
  (List.length papers <= 5 * (j + fuel))%nat -> (j <= k)%nat ->
  (forall i, (j <= i < k)%nat -> (5 * i < List.length papers)%nat -> aborted (5 * i)%nat = false) ->
  ((List.length papers <= 5 * k)%nat \/ aborted (5 * k)%nat = true) ->
  chunk_loop P E getE aborted fuel (5 * j) papers
  = map getE (skipn (5 * j) (firstn (5 * k) papers)).
Proof.
  induction fuel as [|fuel IH]; intros j Hf Hjk Hno Hstop; cbn [chunk_loop].
  - rewrite skipn_all2; [reflexivity|]. rewrite length_firstn. lia.
  - destruct (5 * j <? List.length papers)%nat eqn:Hlt.
    + apply Nat.ltb_lt in Hlt.
      destruct (aborted (5 * j)%nat) eqn:Ha.
      * assert (j = k).
        { destruct (Nat.eq_dec j k) as [|Hne]; [assumption|].
          rewrite (Hno j) in Ha by lia. discriminate. }
        subst j. rewrite skipn_all2; [reflexivity|]. rewrite length_firstn. lia.
      * assert (Hjk' : (j < k)%nat).
        { destruct (Nat.eq_dec j k) as [->|Hne]; [|lia].
          destruct Hstop as [Hs|Hs]; [lia|congruence]. }
        replace (5 * j + 5)%nat with (5 * S j)%nat by lia.
        rewrite IH by first [lia | exact Hstop | intros i Hi Hil; apply Hno; lia].
        rewrite <- map_app. f_equal.
        rewrite !skipn_firstn_comm.
        replace (5 * k - 5 * j)%nat with (5 + (5 * k - 5 * S j))%nat by lia.
        rewrite firstn_add_list, skipn_skipn.
        replace (5 + 5 * j)%nat with (5 * S j)%nat by lia. reflexivity.
    + apply Nat.ltb_ge in Hlt.
      rewrite skipn_all2; [reflexivity|]. rewrite length_firstn. lia.
Qed.

(** X11. The embedding loop of [processPaperBatch] yields the embeddings of
    the papers in paper order, chunk by chunk: if the signal is first seen
    aborted at the start of chunk [k] (or the papers run out before it), the
    result is exactly the embeddings of the first [5 * k] papers. *)
Theorem paperEmbeddings_prefix {P E} (getE : P -> E) aborted papers k :
  (forall i, (i < k)%nat -> (5 * i < List.length papers)%nat -> aborted (5 * i)%nat = false) ->
  ((List.length papers <= 5 * k)%nat \/ aborted (5 * k)%nat = true) ->
  paperEmbeddings P E getE aborted papers = map getE (firstn (5 * k) papers).
Proof.
  intros Hno Hstop. unfold paperEmbeddings.
  change 0%nat with (5 * 0)%nat at 1.
  rewrite (chunk_loop_prefix getE aborted papers k (List.length papers) 0); try lia.
  - reflexivity.
  - intros i Hi Hil. apply Hno; lia.
  - exact Hstop.
Qed.

(* ------------------------------------------------------------------ *)
(** ** Retry with backoff *)

Lemma retry_loop_spec {T} (op : nat -> OpOutcome T) : forall r i le res n,
  retry_loop op i r le = (res, n) ->
  (n <= r)%nat
  /\ (forall j, (j + 1 < n)%nat -> exists e, op (i + j)%nat = OpErr e /\ retryable e = true)
  /\ (n = 0%nat -> r = 0%nat /\ res = Thrown le)
  /\ ((0 < n)%nat ->
        match op (i + (n - 1))%nat with
        | OpOk v => res = Returned v
        | OpErr e => if retryable e then n = r /\ res = Thrown (Some e) else res = Thrown (Some e)
        end).
Proof.
  induction r as [|r IH]; intros i le res n H; cbn in H.
  - injection H as <- <-.
    split; [lia|]. split; [intros; lia|]. split; [intros _; split; reflexivity|intros; lia].
  - destruct (op i) as [v|e] eqn:Ho.
    + injection H as <- <-.
      split; [lia|]. split; [intros; lia|]. split; [intros; lia|].
      intros _. rewrite Nat.add_0_r, Ho. reflexivity.
    + unfold retryable. destruct (isRateLimit e || isServerOverload e) eqn:Hr.
      * destruct (retry_loop op (S i) r (Some e)) as [res' n'] eqn:Hl.
        injection H as <- <-.
        destruct (IH _ _ _ _ Hl) as (Hn & Hpre & H0 & Hlast).
        split; [lia|]. split; [|split].
        -- intros j Hj. destruct j as [|j].
           ++ exists e. rewrite Nat.add_0_r. split; [exact Ho|exact Hr].
           ++ replace (i + S j)%nat with (S i + j)%nat by lia. apply Hpre. lia.
        -- intros Hx. discriminate Hx.
        -- intros _. destruct n' as [|n'].
           ++ destruct (H0 eq_refl) as [-> ->]. rewrite Nat.add_0_r, Ho. unfold retryable.
              rewrite Hr. split; reflexivity.
           ++ specialize (Hlast ltac:(lia)).
              replace (i + (S (S n') - 1))%nat with (S i + (S n' - 1))%nat by lia.
              destruct (op (S i + (S n' - 1))%nat) as [v'|e']; [exact Hlast|].
              unfold retryable in Hlast.
              destruct (isRateLimit e' || isServerOverload e');
                [destruct Hlast; split; [lia|assumption]|exact Hlast].
      * injection H as <- <-.
        split; [lia|]. split; [intros; lia|]. split; [intros; lia|].
        intros _. rewrite Nat.add_0_r, Ho. unfold retryable. rewrite Hr. reflexivity.
Qed.

(** X12. [retryWithBackoff(operation, maxRetries)] calls [operation] at
    most [maxRetries] times; every call before the last one failed with a
    rate-limit or overload error; the result is that of the last call
    (its value, or its error thrown), and a retryable error is only thrown
    once all [maxRetries] attempts are used. With [maxRetries = 0] it never
    calls [operation] and throws [undefined]. *)
Theorem retryWithBackoff_spec {T} (operation : nat -> OpOutcome T) maxRetries :
  let '(res, n) := retryWithBackoff operation maxRetries in
  (n <= maxRetries)%nat
  /\ (forall j, (j + 1 < n)%nat -> exists e, operation j = OpErr e /\ retryable e = true)
  /\ (n = 0%nat <-> maxRetries = 0%nat)
  /\ (maxRetries = 0%nat -> res = Thrown None)
  /\ ((0 < n)%nat ->
        match operation (n - 1)%nat with
        | OpOk v => res = Returned v
        | OpErr e => res = Thrown (Some e) /\ (retryable e = true -> n = maxRetries)
        end).
Proof.
  unfold retryWithBackoff.
  destruct (retry_loop operation 0 maxRetries None) as [res n] eqn:H.
  destruct (retry_loop_spec operation maxRetries 0 None res n H) as (Hn & Hpre & H0 & Hlast).
  split; [exact Hn|]. split; [exact Hpre|]. split; [|split].
  - split; [intros Hz; exact (proj1 (H0 Hz))|].
    intros ->. destruct n; [reflexivity|lia].
  - intros ->. destruct n as [|n]; [exact (proj2 (H0 eq_refl))|lia].
  - intros Hp. specialize (Hlast Hp). cbn in Hlast.
    destruct (operation (n - 1)%nat) as [v|e]; [exact Hlast|].
    destruct (retryable e).
    + destruct Hlast as [Hn' Hr]. split; [exact Hr|intros _; exact Hn'].
    + split; [exact Hlast|intros Hx; discriminate Hx].
Qed.

(* ------------------------------------------------------------------ *)
(** ** Text cleaning of the model responses *)

Lemma prefix_cons a p c s :
  String.prefix (String a p) (String c s) = (Ascii.eqb a c && String.prefix p s)%bool.
Proof.
  unfold String.prefix at 1. fold String.prefix.
  destruct (Ascii.ascii_dec a c) as [->|Hne].
  - rewrite Ascii.eqb_refl. reflexivity.
  - destruct (Ascii.eqb a c) eqn:E; [apply Ascii.eqb_eq in E; contradiction|reflexivity].
Qed.

Lemma prefix_self_app p r : String.prefix p (p ++ r) = true.
Proof.
  induction p as [|a p IH]; [destruct r; reflexivity|].
  cbn [append]. rewrite prefix_cons, Ascii.eqb_refl. exact IH.
Qed.

Lemma index_cons sub c s :
  String.index 0 sub (String c s)
  = if String.prefix sub (String c s) then Some 0%nat
    else match String.index 0 sub s with Some n => Some (S n) | None => None end.
Proof. reflexivity. Qed.

Lemma includes_cons s c sub :
  includes (String c s) sub = (String.prefix sub (String c s) || includes s sub)%bool.
Proof.
  unfold includes. rewrite index_cons.
  destruct (String.prefix sub (String c s)); [reflexivity|].
  destruct (String.index 0 sub s); reflexivity.
Qed.

Lemma includes_app_r a b sub : includes b sub = true -> includes (a ++ b) sub = true.
Proof.
  induction a as [|c a IH]; intros H; [exact H|].
  cbn [append]. rewrite includes_cons, IH by exact H. apply orb_true_r.
Qed.

Lemma includes_at a b sub : includes (a ++ sub ++ b) sub = true.
Proof.
  apply includes_app_r. destruct sub as [|c s]; [destruct b; reflexivity|].
  change (String c s ++ b)%string with (String c (s ++ b)).
  rewrite includes_cons. change (String c (s ++ b)) with (String c s ++ b)%string.
  rewrite prefix_self_app. reflexivity.
Qed.

Lemma includes_suffix a b sub : includes (a ++ b) sub = false -> includes b sub = false.
Proof.
  intros H. destruct (includes b sub) eqn:E; [|reflexivity].
  rewrite (includes_app_r a b sub E) in H. discriminate.
Qed.

Lemma prefix_split p s : String.prefix p s = true -> exists r, s = (p ++ r)%string.
Proof.
  revert s. induction p as [|a p IH]; intros s H; [exists s; reflexivity|].
  destruct s as [|c s]; [discriminate|].
  rewrite prefix_cons in H. apply andb_true_iff in H. destruct H as [Ha H].
  apply Ascii.eqb_eq in Ha. subst c. destruct (IH s H) as (r & ->). exists r. reflexivity.
Qed.

(** Every occurrence of a pattern is a split of the text around it. *)
Lemma includes_split s sub :
  includes s sub = true -> exists a b, s = (a ++ sub ++ b)%string.
Proof.
  induction s as [|c s IH]; intros H.
  - unfold includes in H. cbn in H. destruct sub; [|discriminate].
    exists EmptyString, EmptyString. reflexivity.
  - rewrite includes_cons in H. apply orb_true_iff in H. destruct H as [H|H].
    + destruct (prefix_split _ _ H) as (b & Hb).
      exists EmptyString, b. exact Hb.
    + destruct (IH H) as (a & b & ->). exists (String c a), b. reflexivity.
Qed.

Lemma includes_char_cons d a p :
  includes (String a p) (String d EmptyString) = false ->
  Ascii.eqb d a = false /\ includes p (String d EmptyString) = false.
Proof.
  intros H. rewrite includes_cons, prefix_cons in H.
  assert (Hp0 : String.prefix EmptyString p = true) by (destruct p; reflexivity).
  rewrite Hp0 in H.
  destruct (Ascii.eqb d a); [discriminate H|]. split; [reflexivity|exact H].
Qed.

(** An occurrence of a pattern free of the code unit [d] cannot run across
    a [d]. *)
Lemma prefix_cross d p x y :
  includes p (String d EmptyString) = false ->
  String.prefix p (x ++ String d y) = true -> String.prefix p x = true.
Proof.
  revert p. induction x as [|c x IH]; intros p Hp H.
  - destruct p as [|a p]; [reflexivity|].
    cbn [append] in H. rewrite prefix_cons in H.
    destruct (includes_char_cons d a p Hp) as [Hda _].
    destruct (Ascii.eqb a d) eqn:E; [|discriminate].
    apply Ascii.eqb_eq in E. subst a. rewrite Ascii.eqb_refl in Hda. discriminate.
  - destruct p as [|a p]; [reflexivity|].
    cbn [append] in H. rewrite prefix_cons in H. rewrite prefix_cons.
    apply andb_true_iff in H. destruct H as [Ha H]. rewrite Ha.
    apply (IH p); [exact (proj2 (includes_char_cons d a p Hp))|exact H].
Qed.

Lemma str_length_app a b : String.length (a ++ b) = (String.length a + String.length b)%nat.
Proof. induction a as [|c a IH]; cbn; [reflexivity|]. rewrite IH. reflexivity. Qed.

Lemma prefix_length p s : String.prefix p s = true -> (String.length p <= String.length s)%nat.
Proof.
  intros H. destruct (prefix_split p s H) as (r & ->). rewrite str_length_app. lia.
Qed.

Lemma split_last_step sep c s cur :
  split_last sep 0 (String c s) cur
  = if String.prefix sep (String c s) then split_last sep (String.length sep - 1) s EmptyString
    else split_last sep 0 s (cur ++ String c EmptyString).
Proof. reflexivity. Qed.

(** The scan of [split] reaches the first [d] after [s] in between two
    occurrences of a separator free of [d]. *)
Lemma split_last_app sep d y : forall s skip cur,
  includes sep (String d EmptyString) = false -> (skip <= String.length s)%nat ->
  exists cur', split_last sep skip (s ++ String d y) cur = split_last sep 0 (String d y) cur'.
Proof.
  induction s as [|c s IH]; intros skip cur Hsep Hskip.
  - cbn in Hskip. assert (skip = 0%nat) as -> by lia. exists cur. reflexivity.
  - destruct skip as [|k].
    + cbn [append]. rewrite split_last_step.
      destruct (String.prefix sep (String c (s ++ String d y))) eqn:Hp.
      * apply IH; [exact Hsep|].
        change (String c (s ++ String d y)) with (String c s ++ String d y)%string in Hp.
        apply (prefix_cross d) in Hp; [|exact Hsep].
        apply prefix_length in Hp. cbn in Hp. lia.
      * apply IH; [exact Hsep|lia].
    + cbn [append split_last]. apply IH; [exact Hsep|cbn in Hskip; lia].
Qed.

Lemma split_last_no_sep sep : forall t cur,
  includes t sep = false -> split_last sep 0 t cur = (cur ++ t)%string.
Proof.
  induction t as [|c t IH]; intros cur H.
  - symmetry. apply str_app_nil_r.
  - rewrite includes_cons in H. apply orb_false_iff in H. destruct H as [H1 H2].
    rewrite split_last_step, H1, IH by exact H2. apply str_app_assoc.
Qed.

Lemma trim_gt x : trim (">" ++ x)%string = (">" ++ trim_end x)%string.
Proof. unfold trim. cbn [append trim_end]. destruct (trim_end x); reflexivity. Qed.

Lemma includes_token_sep text :
  includes text "<|im_sep|>"%string = true -> includes text "|im_sep|"%string = true.
Proof.
  intros H. destruct (includes_split _ _ H) as (a & b & ->).
  replace (a ++ "<|im_sep|>" ++ b)%string with ((a ++ "<") ++ "|im_sep|" ++ (">" ++ b))%string
    by (rewrite str_app_assoc; reflexivity).
  apply includes_at.
Qed.

(** X13. In [cleanThinkTags] of the Ollama service the [<|im_sep|>] branch
    is never taken, since any text containing [<|im_sep|>] contains
    [|im_sep|]; a response [s<|im_sep|>t] (with no [|im_sep|] in [t]) is
    split on [|im_sep|], so the cleaned text and the text given to
    [JSON.parse] start with the [>] left over from the token. *)
Theorem ollama_im_sep_token_leaves_gt s t :
  includes t "|im_sep|"%string = false ->
  (forall text, includes text "<|im_sep|>"%string = true -> includes text "|im_sep|"%string = true)
  /\ ollama_cleanThinkTags (s ++ "<|im_sep|>" ++ t)%string = (">" ++ trim_end t)%string
  /\ exists rest, inference_json_text (s ++ "<|im_sep|>" ++ t)%string = (">" ++ rest)%string.
Proof.
  intros Ht.
  assert (Hc : ollama_cleanThinkTags (s ++ "<|im_sep|>" ++ t)%string = (">" ++ trim_end t)%string).
  { unfold ollama_cleanThinkTags.
    replace (String.eqb (s ++ "<|im_sep|>" ++ t) "") with false
      by (destruct s; reflexivity).
    rewrite (includes_token_sep _ (includes_at s t _)).
    destruct (split_last_app "|im_sep|"%string (Ascii.ascii_of_nat 60) ("|im_sep|>" ++ t)%string
                s 0 EmptyString eq_refl ltac:(lia)) as (cur' & Hcur).
    change ("<|im_sep|>" ++ t)%string with (String (Ascii.ascii_of_nat 60) ("|im_sep|>" ++ t)).
    rewrite Hcur.
    change (split_last "|im_sep|" 0 (String (Ascii.ascii_of_nat 60) ("|im_sep|>" ++ t)) cur')
      with (split_last "|im_sep|" 0 t ">").
    rewrite split_last_no_sep by exact Ht. apply trim_gt. }
  split; [exact includes_token_sep|]. split; [exact Hc|].
  exists (trim_end (replace_all fence_match 0 (trim_end t))).
  unfold inference_json_text. rewrite Hc. apply trim_gt.
Qed.

Lemma ci_prefix_self p r : ci_prefix p (p ++ r) = true.
Proof.
  induction p as [|a p IH]; [destruct r; reflexivity|].
  cbn [append ci_prefix]. unfold ci_eq. rewrite Ascii.eqb_refl. exact IH.
Qed.

(** An occurrence of a pattern that does not contain [d] (ignoring case)
    cannot run across a [d]. *)
Lemma ci_prefix_cross d p x y :
  ci_index (String d EmptyString) p = None ->
  ci_prefix p (x ++ String d y) = true -> ci_prefix p x = true.
Proof.
  revert p. induction x as [|c x IH]; intros p Hp H.
  - destruct p as [|a p]; [reflexivity|]. exfalso.
    cbn [append ci_prefix] in H. apply andb_true_iff in H. destruct H as [Ha _].
    cbn [ci_index ci_prefix] in Hp. unfold ci_eq in Hp, Ha.
    rewrite Ascii.eqb_sym, Ha in Hp. discriminate Hp.
  - destruct p as [|a p]; [reflexivity|].
    cbn [append ci_prefix] in H |- *. apply andb_true_iff in H. destruct H as [Ha H].
    rewrite Ha. apply (IH p); [|exact H].
    cbn [ci_index ci_prefix] in Hp. rewrite andb_true_r in Hp.
    destruct (ci_eq d a); [discriminate Hp|].
    destruct (ci_index (String d EmptyString) p); [discriminate Hp|reflexivity].
Qed.

(** The first occurrence of a pattern starting with [d] and with no other
    [d], in [s] followed by the pattern, when [s] has none. *)
Lemma ci_index_app d pat' s y :
  ci_index (String d EmptyString) pat' = None ->
  ci_prefix (String d pat') (String d y) = true ->
  ci_index (String d pat') s = None ->
  ci_index (String d pat') (s ++ String d y) = Some (String.length s).
Proof.
  intros Hp Hr. induction s as [|c s IH]; intros Hs.
  - cbn [append]. unfold ci_index. rewrite Hr. reflexivity.
  - cbn [append]. 
    change (ci_index (String d pat') (String c s))
      with (if ci_prefix (String d pat') (String c s) then Some 0%nat
            else option_map S (ci_index (String d pat') s)) in Hs.
    change (ci_index (String d pat') (String c (s ++ String d y)))
      with (if ci_prefix (String d pat') (String c (s ++ String d y)) then Some 0%nat
            else option_map S (ci_index (String d pat') (s ++ String d y))).
    destruct (ci_prefix (String d pat') (String c s)) eqn:E1; [discriminate Hs|].
    replace (ci_prefix (String d pat') (String c (s ++ String d y))) with false.
    + destruct (ci_index (String d pat') s); [discriminate Hs|].
      rewrite IH by reflexivity. reflexivity.
    + symmetry. destruct (ci_prefix (String d pat') (String c (s ++ String d y))) eqn:E2;
        [|reflexivity].
      cbn [ci_prefix] in E1, E2. apply andb_true_iff in E2. destruct E2 as [Ha E2].
      rewrite Ha in E1. cbn in E1. rewrite (ci_prefix_cross d pat' s y Hp E2) in E1.
      discriminate E1.
Qed.

Lemma drop_str_app a b : drop_str (String.length a) (a ++ b) = b.
Proof. induction a as [|c a IH]; [destruct b; reflexivity|exact IH]. Qed.

Lemma replace_all_skip m a b : replace_all m (String.length a) (a ++ b) = replace_all m 0 b.
Proof. induction a as [|c a IH]; [reflexivity|exact IH]. Qed.

(** The global think regular expression drops a leading closed block. *)
Lemma replace_think_head s t :
  ci_index "</think>"%string s = None ->
  replace_all think_match 0 ("<think>" ++ s ++ "</think>" ++ t)%string
  = replace_all think_match 0 t.
Proof.
  intros Hs.
  assert (Hm : think_match ("<think>" ++ s ++ "</think>" ++ t)%string
               = Some (7 + String.length s + 8)%nat).
  { unfold think_match. rewrite ci_prefix_self.
    change 7%nat with (String.length "<think>"). rewrite drop_str_app.
    assert (Hi : ci_index "</think>" (s ++ "</think>" ++ t) = Some (String.length s))
      by exact (ci_index_app (Ascii.ascii_of_nat 60) "/think>" s ("/think>" ++ t)
                  eq_refl (ci_prefix_self "</think>" t) Hs).
    rewrite Hi. reflexivity. }
  change ("<think>" ++ s ++ "</think>" ++ t)%string
    with (String (Ascii.ascii_of_nat 60) ("think>" ++ s ++ "</think>" ++ t)).
  cbn [replace_all].
  change (String (Ascii.ascii_of_nat 60) ("think>" ++ s ++ "</think>" ++ t))
    with ("<think>" ++ s ++ "</think>" ++ t)%string.
  rewrite Hm.
  replace (7 + String.length s + 8 - 1)%nat with (String.length ("think>" ++ s ++ "</think>"))
    by (rewrite !str_length_app; cbn; lia).
  rewrite <- (str_app_assoc s "</think>" t), <- (str_app_assoc "think>" (s ++ "</think>") t).
  apply replace_all_skip.
Qed.

Lemma includes_no_token text :
  includes text "|im_sep|"%string = false -> includes text "<|im_sep|>"%string = false.
Proof.
  intros H. destruct (includes text "<|im_sep|>") eqn:E; [|reflexivity].
  rewrite (includes_token_sep _ E) in H. discriminate H.
Qed.

(** X14. A response that opens with a [<think> ... </think>] block (with
    no other [</think>] inside, in any case) is cleaned, by the Ollama
    service when it has no [|im_sep|] and by the Gemini service in any
    case, exactly as the text after the block. *)
Theorem cleanThinkTags_drops_leading_block s t :
  ci_index "</think>"%string s = None ->
  gemini_cleanThinkTags ("<think>" ++ s ++ "</think>" ++ t)%string = gemini_cleanThinkTags t
  /\ (includes ("<think>" ++ s ++ "</think>" ++ t)%string "|im_sep|"%string = false ->
      ollama_cleanThinkTags ("<think>" ++ s ++ "</think>" ++ t)%string = ollama_cleanThinkTags t).
Proof.
  intros Hs. split.
  - unfold gemini_cleanThinkTags.
    change (String.eqb ("<think>" ++ s ++ "</think>" ++ t) "") with false.
    rewrite replace_think_head by exact Hs.
    destruct t; reflexivity.
  - intros Hi. unfold ollama_cleanThinkTags.
    change (String.eqb ("<think>" ++ s ++ "</think>" ++ t) "") with false.
    rewrite Hi, includes_no_token by exact Hi.
    rewrite replace_think_head by exact Hs.
    assert (Ht : includes t "|im_sep|" = false).
    { apply (includes_suffix ("<think>" ++ s ++ "</think>")).
      rewrite !str_app_assoc. exact Hi. }
    destruct t as [|c t']; [reflexivity|].
    change (String.eqb (String c t') "") with false.
    rewrite Ht, includes_no_token by exact Ht. reflexivity.
Qed.

(* ------------------------------------------------------------------ *)
(** ** Zotero service *)

Lemma upload_loop_spec check post useLocal items :
  let '(res, posted) := upload_loop check post useLocal items in
  map paperTitle res = map (fun i => p_title (x_paper i)) items
  /\ posted = map (fun i => p_title (x_paper i))
                (filter (fun i => match check i with
                                  | DUP_NEW => true | DUP_UNCERTAIN => useLocal | DUP_DUPLICATE => false
                                  end) items)
  /\ List.length (filter (fun r => match z_status r with UPLOADED => true | _ => false end) res)
     = List.length (filter (fun i => match check i with
                                     | DUP_NEW => true | DUP_UNCERTAIN => useLocal | DUP_DUPLICATE => false
                                     end
                                     && match post i with PostOk => true | _ => false end) items).
Proof.
  induction items as [|it items IH]; cbn [upload_loop]; [repeat split|].
  destruct (upload_loop check post useLocal items) as [res posted].
  destruct IH as (H1 & H2 & H3).
  destruct (check it) eqn:Ec; [| destruct useLocal | ];
    try (cbn [negb]; destruct (post it) eqn:Ep);
    cbn [map filter z_status paperTitle negb andb]; rewrite ?Ec, ?Ep; cbn [andb List.length];
    rewrite ?H1, ?H2, ?H3; repeat split.
Qed.

(** X15. [uploadItems] reports on every item, in order, under its title.
    In cloud mode with no (trimmed) library id it sends nothing and reports
    every item as [ERROR] "Zotero Library ID missing. Cannot upload.".
    Otherwise it sends exactly the items whose duplicate check answers
    [NEW], or [UNCERTAIN] in local mode, in order (never a [DUPLICATE]), and
    the number of [UPLOADED] reports is the number of those sent items whose
    [POST] succeeded. *)
Theorem uploadItems_spec check post zs items :
  let '(res, posted) := uploadItems check post zs items in
  map paperTitle res = map (fun i => p_title (x_paper i)) items
  /\ (negb (useLocalZotero zs) && negb (truthy (service_libraryId zs)) = true ->
      posted = []
      /\ Forall (fun r => z_status r = ERROR
                          /\ details r = Some "Zotero Library ID missing. Cannot upload."%string) res)
  /\ (negb (useLocalZotero zs) && negb (truthy (service_libraryId zs)) = false ->
      posted = map (fun i => p_title (x_paper i))
                 (filter (fun i => match check i with
                                   | DUP_NEW => true | DUP_UNCERTAIN => useLocalZotero zs
                                   | DUP_DUPLICATE => false
                                   end) items)
      /\ List.length (filter (fun r => match z_status r with UPLOADED => true | _ => false end) res)
         = List.length (filter (fun i => match check i with
                                         | DUP_NEW => true | DUP_UNCERTAIN => useLocalZotero zs
                                         | DUP_DUPLICATE => false
                                         end
                                         && match post i with PostOk => true | _ => false end) items)).
Proof.
  unfold uploadItems.
  destruct (negb (useLocalZotero zs) && negb (truthy (service_libraryId zs))) eqn:E.
  - split; [rewrite map_map; reflexivity|]. split; [|intros Hx; discriminate Hx].
    intros _. split; [reflexivity|]. apply Forall_forall. intros r Hr.
    apply in_map_iff in Hr. destruct Hr as (i & <- & _). split; reflexivity.
  - pose proof (upload_loop_spec check post (useLocalZotero zs) items) as H.
    destruct (upload_loop check post (useLocalZotero zs) items) as [res posted].
    destruct H as (H1 & H2 & H3).
    split; [exact H1|]. split; [intros Hx; discriminate Hx|]. intros _. split; assumption.
Qed.

(** X16. [runSpeedupJobExport] tests the Zotero library id untrimmed, the
    service it builds trims it: in cloud mode with an API key and a library
    id made only of white space, exporting with the upload option starts an
    upload of all the qualified papers, and that upload sends nothing and
    reports every paper as [ERROR]. *)
Theorem export_blank_library_id ns check post zs feed userWantsRis :
  useLocalZotero zs = false ->
  opt_truthy (zoteroApiKey zs) = true ->
  opt_truthy (zoteroLibraryId zs) = true ->
  service_libraryId zs = EmptyString ->
  export_items feed <> [] ->
  handleExport ns feed true zs userWantsRis = ExUpload (export_items feed)
  /\ uploadItems check post zs (export_items feed)
     = (map (fun i => {| paperTitle := p_title (x_paper i); z_status := ERROR;
                         details := Some "Zotero Library ID missing. Cannot upload."%string |})
            (export_items feed), []).
Proof.
  intros Hl Hk Hi Hs Hne. split.
  - unfold handleExport. destruct (export_items feed) as [|it rest] eqn:E; [contradiction|].
    unfold runSpeedupJobExport. rewrite Hl, Hk, Hi. reflexivity.
  - unfold uploadItems. rewrite Hl, Hs. reflexivity.
Qed.

Lemma substring0_length n s : String.length (substring 0 n s) = Nat.min n (String.length s).
Proof.
  revert s. induction n as [|n IH]; intros s; [destruct s; reflexivity|].
  destruct s as [|c s]; [reflexivity|]. cbn. rewrite IH. reflexivity.
Qed.

Lemma substring0_prefix n s : String.prefix (substring 0 n s) s = true.
Proof.
  revert s. induction n as [|n IH]; intros s; [destruct s; reflexivity|].
  destruct s as [|c s]; [reflexivity|]. cbn [substring].
  rewrite prefix_cons, Ascii.eqb_refl. apply IH.
Qed.

(** X17. [truncate(str, maxLen)] never returns more than [maxLen] code
    units when [maxLen >= 3]; it returns a text that fits unchanged, and
    cuts a longer one to its first [maxLen - 3] code units followed by
    ["..."]. *)
Theorem truncate_spec str maxLen :
  (3 <= maxLen)%nat ->
  (String.length (truncate str maxLen) <= maxLen)%nat
  /\ ((String.length str <= maxLen)%nat -> truncate str maxLen = str)
  /\ ((maxLen < String.length str)%nat ->
      exists p, truncate str maxLen = (p ++ "...")%string
                /\ String.prefix p str = true /\ String.length p = (maxLen - 3)%nat).
Proof.
  intros H3. unfold truncate.
  destruct (String.eqb str "") eqn:E.
  - apply String.eqb_eq in E. subst str. cbn. split; [lia|]. split; [reflexivity|intros; lia].
  - destruct (String.length str <=? maxLen)%nat eqn:Hle.
    + apply Nat.leb_le in Hle. split; [exact Hle|]. split; [reflexivity|intros; lia].
    + apply Nat.leb_gt in Hle.
      split; [|split; [intros; lia|]].
      * rewrite str_length_app, substring0_length. cbn. lia.
      * intros _. exists (substring 0 (maxLen - 3) str). split; [reflexivity|].
        split; [apply substring0_prefix|]. rewrite substring0_length. lia.
Qed.

Lemma str_all_filter p s : str_all p (filter_str p s) = true.
Proof.
  induction s as [|c s IH]; [reflexivity|]. cbn.
  destruct (p c) eqn:E; cbn; [rewrite E|]; exact IH.
Qed.

Lemma str_all_trim_start p s : str_all p s = true -> str_all p (trim_start s) = true.
Proof.
  induction s as [|c s IH]; intros H; [reflexivity|]. cbn in H |- *.
  apply andb_true_iff in H. destruct (is_ws c); [apply IH; apply H|cbn; rewrite (proj1 H); apply H].
Qed.

Lemma str_all_trim_end p s : str_all p s = true -> str_all p (trim_end s) = true.
Proof.
  induction s as [|c s IH]; intros H; [reflexivity|]. cbn in H |- *.
  apply andb_true_iff in H. destruct H as [Hc Hs]. specialize (IH Hs).
  destruct (trim_end s) as [|c' s'].
  - destruct (is_ws c); cbn; [reflexivity|rewrite Hc; reflexivity].
  - cbn. rewrite Hc. exact IH.
Qed.

Lemma str_all_substring0 p n s : str_all p s = true -> str_all p (substring 0 n s) = true.
Proof.
  revert s. induction n as [|n IH]; intros s H; [destruct s; reflexivity|].
  destruct s as [|c s]; [reflexivity|]. cbn in H |- *.
  apply andb_true_iff in H. rewrite (proj1 H). apply IH. apply H.
Qed.

Lemma trim_start_head s c r : trim_start s = String c r -> is_ws c = false.
Proof.
  induction s as [|c0 s IH]; intros H; [discriminate H|]. cbn in H.
  destruct (is_ws c0) eqn:E; [exact (IH H)|]. injection H as <- _. exact E.
Qed.

Lemma sanitizeTag_props tag :
  (String.length (sanitizeTag tag) <= 50)%nat
  /\ str_all tag_char (sanitizeTag tag) = true
  /\ (forall c r, sanitizeTag tag = String c r -> Ascii.nat_of_ascii c <> 32%nat).
Proof.
  unfold sanitizeTag.
  assert (Hall : str_all tag_char (trim (filter_str tag_char tag)) = true).
  { unfold trim. apply str_all_trim_start, str_all_trim_end, str_all_filter. }
  assert (Hhead : forall c r, trim (filter_str tag_char tag) = String c r -> is_ws c = false).
  { intros c r H. exact (trim_start_head _ _ _ H). }
  destruct (50 <? String.length (trim (filter_str tag_char tag)))%nat eqn:E.
  - split; [rewrite substring0_length; lia|]. split; [apply str_all_substring0; exact Hall|].
    intros c r H. destruct (trim (filter_str tag_char tag)) as [|c0 r0] eqn:Et; [discriminate H|].
    cbn in H. injection H as <- _. specialize (Hhead c0 r0 eq_refl).
    intros Hc. unfold is_ws in Hhead. rewrite Hc in Hhead. discriminate Hhead.
  - apply Nat.ltb_ge in E. split; [exact E|]. split; [exact Hall|].
    intros c r H. specialize (Hhead c r H).
    intros Hc. unfold is_ws in Hhead. rewrite Hc in Hhead. discriminate Hhead.
Qed.

(** X18. Every tag [formatItem] gives Zotero has between 3 and 50 code
    units, all of them letters, digits, spaces, [-] or [_], and does not
    start with a space; the tag ["EcoScholar"] always comes first. *)
Theorem formatTags_spec :
  (forall raw t, In t (formatTags raw) ->
     (3 <= String.length t <= 50)%nat /\ str_all tag_char t = true
     /\ (forall c r, t = String c r -> Ascii.nat_of_ascii c <> 32%nat))
  /\ (forall querySource aiTags firstMatchTag aiQualified,
        exists rest, formatTags (rawTags querySource aiTags firstMatchTag aiQualified)
                     = "EcoScholar"%string :: rest).
Proof.
  split.
  - intros raw t Ht. unfold formatTags in Ht. apply filter_In in Ht. destruct Ht as [Ht Hlen].
    apply Nat.ltb_lt in Hlen. apply in_map_iff in Ht. destruct Ht as (x & <- & _).
    destruct (sanitizeTag_props x) as (H1 & H2 & H3).
    split; [lia|]. split; [exact H2|]. intros c r Hx. exact (H3 c r Hx).
  - intros q a m b. unfold formatTags, rawTags. cbn [app flat_map].
    change (truthy "EcoScholar") with true. cbn [app map].
    change (sanitizeTag "EcoScholar") with "EcoScholar"%string.
    cbn [filter]. change (2 <? String.length "EcoScholar")%nat with true.
    eexists. reflexivity.
Qed.

(* ------------------------------------------------------------------ *)
(** ** Streamed responses *)

Lemma split_nl_nonempty s : split_nl s <> [].
Proof.
  destruct s as [|c s]; cbn; [discriminate|].
  destruct (Ascii.eqb c _); [discriminate|]. destruct (split_nl s); discriminate.
Qed.

Lemma removelast_app_ne {A} (l m : list A) : m <> [] -> removelast (l ++ m) = l ++ removelast m.
Proof.
  intros Hm. induction l as [|x l IH]; [reflexivity|].
  cbn [app]. rewrite <- IH. destruct (l ++ m) eqn:E; [|reflexivity].
  apply app_eq_nil in E. destruct E as [_ E]. contradiction.
Qed.

Lemma last_app_ne {A} (l m : list A) d : m <> [] -> last (l ++ m) d = last m d.
Proof.
  intros Hm. induction l as [|x l IH]; [reflexivity|].
  cbn [app]. rewrite <- IH. destruct (l ++ m) eqn:E; [|reflexivity].
  apply app_eq_nil in E. destruct E as [_ E]. contradiction.
Qed.

(** The lines of a concatenation: the complete lines of the first part,
    then the lines of its last partial line followed by the second part. *)
Lemma split_nl_app x y :
  split_nl (x ++ y) = removelast (split_nl x) ++ split_nl (last (split_nl x) EmptyString ++ y).
Proof.
  induction x as [|c x IH]; [reflexivity|].
  cbn [append split_nl]. rewrite IH.
  pose proof (split_nl_nonempty x) as Hne.
  destruct (Ascii.eqb c (Ascii.ascii_of_nat 10)) eqn:Ec.
  - destruct (split_nl x) as [|p ps]; [contradiction|]. reflexivity.
  - destruct (split_nl x) as [|p [|q rest]]; [contradiction| |].
    + cbn [removelast last app append split_nl]. rewrite Ec. reflexivity.
    + change (removelast (p :: q :: rest)) with (p :: removelast (q :: rest)).
      change (removelast (String c p :: q :: rest)) with (String c p :: removelast (q :: rest)).
      reflexivity.
Qed.

Lemma last_In_split s : In (last (split_nl s) EmptyString) (split_nl s).
Proof.
  pose proof (split_nl_nonempty s) as Hne. destruct (split_nl s) as [|p ps]; [contradiction|].
  clear Hne. revert p. induction ps as [|q ps IH]; intros p; [left; reflexivity|].
  change (last (p :: q :: ps) EmptyString) with (last (q :: ps) EmptyString).
  right. apply IH.
Qed.

Lemma split_nl_parts s : forall p, In p (split_nl s) -> split_nl p = [p].
Proof.
  induction s as [|c s IH]; intros p Hp.
  - destruct Hp as [<-|[]]. reflexivity.
  - cbn [split_nl] in Hp. destruct (Ascii.eqb c (Ascii.ascii_of_nat 10)) eqn:Ec.
    + destruct Hp as [<-|Hp]; [reflexivity|exact (IH p Hp)].
    + destruct (split_nl s) as [|q qs] eqn:E; [exact (False_rect _ (split_nl_nonempty s E))|].
      destruct Hp as [<-|Hp]; [|exact (IH p (or_intror Hp))].
      cbn [split_nl]. rewrite Ec, (IH q (or_introl eq_refl)). reflexivity.
Qed.

Lemma stream_fold parseResponse chunks : forall acc full,
  split_nl acc = [acc] ->
  fold_left (stream_chunk parseResponse) chunks (acc, full)
  = (last (split_nl (acc ++ concat_str chunks)) EmptyString,
     fold_left (process_line parseResponse) (removelast (split_nl (acc ++ concat_str chunks))) full).
Proof.
  induction chunks as [|c cs IH]; intros acc full Hacc.
  - cbn [fold_left concat_str]. rewrite str_app_nil_r, Hacc. reflexivity.
  - cbn [fold_left concat_str]. unfold stream_chunk at 2.
    rewrite IH.
    + rewrite <- str_app_assoc, (split_nl_app (acc ++ c) (concat_str cs)).
      rewrite last_app_ne, removelast_app_ne, fold_left_app by apply split_nl_nonempty.
      reflexivity.
    + apply (split_nl_parts (acc ++ c)). apply last_In_split.
Qed.

Lemma split_nl_no_nl s : includes s nl = false -> split_nl s = [s].
Proof.
  induction s as [|c s IH]; intros H; [reflexivity|].
  rewrite includes_cons in H. apply orb_false_iff in H. destruct H as [H1 H2].
  unfold nl in H1. rewrite prefix_cons in H1.
  assert (Hp0 : String.prefix EmptyString s = true) by (destruct s; reflexivity).
  rewrite Hp0, andb_true_r in H1.
  cbn [split_nl]. rewrite Ascii.eqb_sym, H1, IH by exact H2. reflexivity.
Qed.

(** X19. The text a streamed Ollama response yields depends only on the
    concatenation of the chunks, not on where the chunks are cut: it is
    the responses of the complete lines of the stream, in order. The text
    after the last newline is never parsed, so a stream with no newline at
    all yields the empty text. *)
Theorem read_stream_chunking parseResponse chunks :
  read_stream parseResponse chunks
  = fold_left (process_line parseResponse) (removelast (split_nl (concat_str chunks))) EmptyString
  /\ (forall chunks', concat_str chunks' = concat_str chunks ->
        read_stream parseResponse chunks' = read_stream parseResponse chunks)
  /\ (includes (concat_str chunks) nl = false -> read_stream parseResponse chunks = EmptyString).
Proof.
  assert (Hall : forall cs, read_stream parseResponse cs
    = fold_left (process_line parseResponse) (removelast (split_nl (concat_str cs))) EmptyString).
  { intros cs. unfold read_stream. rewrite stream_fold by reflexivity. reflexivity. }
  split; [apply Hall|]. split.
  - intros cs' Hc. rewrite !Hall, Hc. reflexivity.
  - intros Hn. rewrite Hall, split_nl_no_nl by exact Hn. reflexivity.
Qed.

(* ------------------------------------------------------------------ *)
(** ** Record windows of the batch loop *)

Lemma fetch_windows_app a b : fetch_windows (a ++ b) = fetch_windows a ++ fetch_windows b.
Proof. unfold fetch_windows. apply flat_map_app. Qed.

Lemma ai_loop_no_fetch pid rs : fetch_windows (snd (ai_loop pid rs)) = [].
Proof.
  induction rs as [|r rs IH]; [reflexivity|].
  destruct r; try reflexivity. cbn [ai_loop].
  destruct (ai_loop pid rs) as [a evs]. exact IH.
Qed.

Lemma process_paper_no_fetch cos cfg item qv svs st smart d :
  let '(_, _, _, evs) := process_paper cos cfg item qv svs st smart d in fetch_windows evs = [].
Proof.
  unfold process_paper.
  destruct (passes_prefilter _); [|reflexivity].
  destruct (failFast cfg && _ && _); [reflexivity|].
  match goal with |- context [if ?c && negb smart then _ else _] =>
    destruct (c && negb smart) end;
  (match goal with |- context [if ?e then _ else _] => destruct e end; [reflexivity|]);
  pose proof (ai_loop_no_fetch (d_id d) (d_race d)) as H;
  destruct (ai_loop (d_id d) (d_race d)) as [ai evs]; cbn [snd] in H;
  rewrite !fetch_windows_app, H; reflexivity.
Qed.

Lemma batch_no_fetch cos cfg item qv svs papers : forall st smart,
  let '(_, _, evs, _) := processPaperBatch cos cfg item qv svs st smart papers in
  fetch_windows evs = [].
Proof.
  induction papers as [|d ds IH]; intros st smart; cbn [processPaperBatch]; [reflexivity|].
  destruct (failFastTriggered st); [reflexivity|].
  pose proof (process_paper_no_fetch cos cfg item qv svs st smart d) as H.
  destruct (process_paper cos cfg item qv svs st smart d) as [[[st1 sm1] r] evs].
  destruct (failFastTriggered st1); [exact H|].
  specialize (IH st1 sm1).
  destruct (processPaperBatch cos cfg item qv svs st1 sm1 ds) as [[[st2 sm2] evs2] stop].
  rewrite fetch_windows_app, H, IH. reflexivity.
Qed.

Lemma batch_loop_windows cos cfg item qv svs fetchPage fuel :
  forall currentStart LIMIT st smart,
  let '(_, _, evs, _) :=
    batch_loop cos cfg item qv svs fetchPage fuel currentStart LIMIT st smart in
  exists k,
    fetch_windows evs
    = map (fun j => (currentStart + 20 * j, Nat.min 20 (LIMIT - (currentStart + 20 * j))))%nat
          (seq 0 k)
    /\ forall j, (j < k)%nat -> (currentStart + 20 * j < LIMIT)%nat.
Proof.
  assert (Hshift : forall (f : nat -> nat * nat) k, map f (seq 1 k) = map (fun j => f (S j)) (seq 0 k)).
  { intros f k. rewrite <- seq_shift, map_map. reflexivity. }
  assert (Hnext : forall cs LIMIT k,
    (cs < LIMIT)%nat ->
    (forall j, (j < k)%nat -> (cs + 20 + 20 * j < LIMIT)%nat) ->
    (cs, Nat.min 20 (LIMIT - cs))
      :: map (fun j => (cs + 20 + 20 * j, Nat.min 20 (LIMIT - (cs + 20 + 20 * j))))%nat (seq 0 k)
    = map (fun j => (cs + 20 * j, Nat.min 20 (LIMIT - (cs + 20 * j))))%nat (seq 0 (S k))
    /\ forall j, (j < S k)%nat -> (cs + 20 * j < LIMIT)%nat).
  { intros cs LIMIT k Hlt Hall. split.
    - cbn [seq map]. rewrite Hshift. rewrite Nat.add_0_r. f_equal.
      apply map_ext. intros j. f_equal; [lia|]. f_equal. f_equal. lia.
    - intros [|j] Hj; [lia|]. specialize (Hall j ltac:(lia)). lia. }
  induction fuel as [|fuel IH]; intros cs LIMIT st smart; cbn [batch_loop].
  - exists 0%nat. split; [reflexivity|intros; lia].
  - destruct (cs <? LIMIT)%nat eqn:Hlt; [|exists 0%nat; split; [reflexivity|intros; lia]].
    apply Nat.ltb_lt in Hlt.
    destruct (failFastTriggered st); [exists 0%nat; split; [reflexivity|intros; lia]|].
    unfold BATCH_SIZE.
    destruct (fetchPage cs (Nat.min 20 (LIMIT - cs))) as [[|d ds]|].
    + exists 1%nat. split; [cbn; rewrite Nat.add_0_r; reflexivity|intros j Hj; lia].
    + pose proof (batch_no_fetch cos cfg item qv svs (d :: ds) st smart) as Hb.
      destruct (processPaperBatch cos cfg item qv svs st smart (d :: ds))
        as [[[st1 sm1] evs1] stop].
      destruct stop.
      * exists 1%nat. split; [|intros j Hj; lia].
        change (EvFetch cs (Nat.min 20 (LIMIT - cs)) :: evs1)
          with ([EvFetch cs (Nat.min 20 (LIMIT - cs))] ++ evs1).
        rewrite fetch_windows_app, Hb. cbn. rewrite Nat.add_0_r. reflexivity.
      * specialize (IH (cs + 20)%nat LIMIT st1 sm1).
        destruct (batch_loop cos cfg item qv svs fetchPage fuel (cs + 20) LIMIT st1 sm1)
          as [[[st2 sm2] evs2] ffs].
        destruct IH as (k & Hk & Hall).
        exists (S k). 
        change (EvFetch cs (Nat.min 20 (LIMIT - cs)) :: evs1 ++ evs2)
          with ([EvFetch cs (Nat.min 20 (LIMIT - cs))] ++ evs1 ++ evs2).
        rewrite !fetch_windows_app, Hb, Hk. apply Hnext; assumption.
    + specialize (IH (cs + 20)%nat LIMIT st smart).
      destruct (batch_loop cos cfg item qv svs fetchPage fuel (cs + 20) LIMIT st smart)
        as [[[st2 sm2] evs2] ffs].
      destruct IH as (k & Hk & Hall).
      exists (S k).
      change (EvFetch cs (Nat.min 20 (LIMIT - cs)) :: EvFetchFailed cs :: evs2)
        with ([EvFetch cs (Nat.min 20 (LIMIT - cs)); EvFetchFailed cs] ++ evs2).
      rewrite fetch_windows_app, Hk. apply Hnext; assumption.
Qed.

(** X20. The pages one query of [handleRunCycle] requests are the
    consecutive windows of 20 records from [startRec], in order, each of
    size [min(20, STOP_LIMIT - currentStart)] and starting below
    [STOP_LIMIT]: no record at or beyond [STOP_LIMIT] is ever requested. *)
Theorem run_query_windows cos cfg item qv svs fetchPage :
  let '(_, evs) := run_query cos cfg item qv svs fetchPage in
  exists k,
    fetch_windows evs
    = map (fun j => (startRec item + 20 * j,
                     Nat.min 20 (STOP_LIMIT item - (startRec item + 20 * j))))%nat (seq 0 k)
    /\ forall j, (j < k)%nat -> (startRec item + 20 * j < STOP_LIMIT item)%nat.
Proof.
  unfold run_query.
  pose proof (batch_loop_windows cos cfg item qv svs fetchPage (S (STOP_LIMIT item))
                (startRec item) (STOP_LIMIT item) cycle_reset false) as H.
  destruct (batch_loop cos cfg item qv svs fetchPage (S (STOP_LIMIT item)) (startRec item)
              (STOP_LIMIT item) cycle_reset false) as [[[st sm] evs] ffs].
  destruct H as (k & Hk & Hall). exists k. split; [|exact Hall].
  rewrite fetch_windows_app, Hk. cbn. apply app_nil_r.
Qed.

(* ------------------------------------------------------------------ *)
(** ** Witnesses of the properties above *)

Lemma export_fast_path_only_nothing_witness :
  (exists it, In (FPaper it) [FPaper (sample_export_item QUALIFIED_SPEEDUP)]
              /\ x_status (x_result it) = QUALIFIED_SPEEDUP)
  /\ handleExport sample_numToString [FPaper (sample_export_item QUALIFIED_SPEEDUP)] false
       sample_blank_id_settings true = ExNothing.
Proof.
  assert (Hex : exists it, In (FPaper it) [FPaper (sample_export_item QUALIFIED_SPEEDUP)]
                           /\ x_status (x_result it) = QUALIFIED_SPEEDUP)
    by (exists (sample_export_item QUALIFIED_SPEEDUP); split; [left; reflexivity|reflexivity]).
  split; [exact Hex|].
  apply (export_fast_path_only_nothing sample_numToString
           [FPaper (sample_export_item QUALIFIED_SPEEDUP)] sample_blank_id_settings true Hex).
  intros it [Hit|[]]. injection Hit as <-. discriminate.
Defined.

Lemma handleNetworkLog_invariant_witness :
  NoDup (map log_id [sample_old_log])
  /\ NoDup (map log_id (handleNetworkLog nat [sample_old_log] sample_log))
  /\ (List.length (handleNetworkLog nat [sample_old_log] sample_log) <= 200)%nat.
Proof.
  assert (Hd : NoDup (map log_id [sample_old_log])) by (repeat constructor; intros []).
  split; [exact Hd|].
  apply (handleNetworkLog_invariant [sample_old_log] sample_log Hd). cbn. lia.
Defined.


Lemma paperEmbeddings_prefix_witness :
  Nat.eqb (5 * 1) 5 = true
  /\ paperEmbeddings nat nat (fun n => (2 * n)%nat) (fun c => Nat.eqb c 5) [1; 2; 3; 4; 5; 6; 7]%nat
     = map (fun n => (2 * n)%nat) (firstn 5 [1; 2; 3; 4; 5; 6; 7]%nat).
Proof.
  split; [reflexivity|].
  apply (paperEmbeddings_prefix (fun n => (2 * n)%nat) (fun c => Nat.eqb c 5)
           [1; 2; 3; 4; 5; 6; 7]%nat 1).
  - intros i Hi _. assert (i = 0%nat) as -> by lia. reflexivity.
  - right. reflexivity.
Defined.

Lemma ollama_im_sep_token_leaves_gt_witness :
  includes "{}" "|im_sep|" = false
  /\ ((forall text, includes text "<|im_sep|>"%string = true -> includes text "|im_sep|"%string = true)
      /\ ollama_cleanThinkTags ("<think>x</think>" ++ "<|im_sep|>" ++ "{}")%string
         = (">" ++ trim_end "{}")%string
      /\ exists rest, inference_json_text ("<think>x</think>" ++ "<|im_sep|>" ++ "{}")%string
                      = (">" ++ rest)%string).
Proof.
  split; [reflexivity|].
  apply (ollama_im_sep_token_leaves_gt "<think>x</think>" "{}"). reflexivity.
Defined.

Lemma cleanThinkTags_drops_leading_block_witness :
  ci_index "</think>" "plan" = None
  /\ gemini_cleanThinkTags ("<think>" ++ "plan" ++ "</think>" ++ " {}")%string
     = gemini_cleanThinkTags " {}"
  /\ ollama_cleanThinkTags ("<think>" ++ "plan" ++ "</think>" ++ " {}")%string
     = ollama_cleanThinkTags " {}".
Proof.
  split; [reflexivity|].
  destruct (cleanThinkTags_drops_leading_block "plan" " {}" eq_refl) as [Hg Ho].
  split; [exact Hg|]. apply Ho. reflexivity.
Defined.

Lemma export_blank_library_id_witness :
  service_libraryId sample_blank_id_settings = EmptyString
  /\ handleExport sample_numToString [FPaper (sample_export_item QUALIFIED)] true
       sample_blank_id_settings false
     = ExUpload (export_items [FPaper (sample_export_item QUALIFIED)])
  /\ uploadItems (fun _ => DUP_NEW) (fun _ => PostOk) sample_blank_id_settings
       (export_items [FPaper (sample_export_item QUALIFIED)])
     = (map (fun i => {| paperTitle := p_title (x_paper i); z_status := ERROR;
                         details := Some "Zotero Library ID missing. Cannot upload."%string |})
            (export_items [FPaper (sample_export_item QUALIFIED)]), []).
Proof.
  split; [reflexivity|].
  apply (export_blank_library_id sample_numToString (fun _ => DUP_NEW) (fun _ => PostOk)
           sample_blank_id_settings [FPaper (sample_export_item QUALIFIED)] false);
    [reflexivity | reflexivity | reflexivity | reflexivity | discriminate].
Defined.

Lemma truncate_spec_witness :
  (3 <= 8)%nat
  /\ (String.length (truncate "Curcumin in wound healing" 8) <= 8)%nat
  /\ ((String.length "Curcumin in wound healing" <= 8)%nat ->
      truncate "Curcumin in wound healing" 8 = "Curcumin in wound healing"%string)
  /\ ((8 < String.length "Curcumin in wound healing")%nat ->
      exists p, truncate "Curcumin in wound healing" 8 = (p ++ "...")%string
                /\ String.prefix p "Curcumin in wound healing" = true
                /\ String.length p = (8 - 3)%nat).
Proof.
  split; [lia|]. apply truncate_spec. lia.
Defined.
